(** * mcp_pob: decode pipeline, extractors, cache, classifier and rescoring

    A shallow embedding of the TypeScript sources of the Path of Building
    MCP server, and the properties of its specification that can be settled
    on it.

    Layout:
    - [Errors]      utils/error-handler.ts;
    - [JS]          the fragment of JavaScript values and built-ins the sources use;
    - [Decompress]  the decompressor ([decompressZlib], [decompressWithFallback]);
    - [Xml]         parsers/pob-xml-parser.ts (version gate);
    - [CharacterParser], [SkillParser], [GearParser] the extractors;
    - [Cache], [ParseTool] the build cache and the parse_pob_code handler;
    - [Defense]     the defensive analyzer ([classifyDefense]);
    - [Suggest]     the suggest_improvements handler (rescoring pass);
    - the theorems, grouped by component. *)

From Stdlib Require Import ZArith List String Ascii Bool Lia.
From Stdlib Require Import DecimalString.
From Stdlib Require Import Permutation Sorted.
Set Warnings "-register-all".
Import ListNotations.
Open Scope string_scope.
Open Scope Z_scope.

(* ================================================================== *)
(** ** utils/error-handler.ts, and what can be thrown *)
(* ================================================================== *)

Module Errors.

Inductive ErrorCode : Type :=
| INVALID_BASE64
| DECOMPRESSION_ERROR
| INVALID_XML
| UNSUPPORTED_VERSION
| MISSING_REQUIRED_FIELD
| PASSIVE_TREE_ERROR.

(** The thrown values.  [PoBParsingError] is the class of
    utils/error-handler.ts, with its optional [details]; [TypeError] is the
    built-in error of the runtime, with an indicative message (the exact
    text depends on the engine). *)
Inductive exn : Type :=
| TypeError (message : string)
| PoBParsingError (code : ErrorCode) (message : string) (details : option string).

Record McpError : Type := mkMcpError {
  code : ErrorCode;
  message : string;
  details : string
}.

(** [details || ""]. *)
Definition createErrorResponse (c : ErrorCode) (m : string) (d : option string) : McpError :=
  mkMcpError c m (match d with Some s => s | None => "" end).

(** [stack] gives the stack trace text of a built-in error.  Everything
    thrown in the modelled sources is an [Error], so the last branch of
    the source (a thrown non-error) has no counterpart here. *)
Definition wrapError (stack : string -> string) (e : exn) (context : string) : McpError :=
  match e with
  | PoBParsingError c m d => createErrorResponse c m d
  | TypeError m => createErrorResponse INVALID_XML (context ++ ": " ++ m) (Some (stack m))
  end.

(** [error.message]. *)
Definition exn_message (e : exn) : string :=
  match e with
  | PoBParsingError _ m _ => m
  | TypeError m => m
  end.

End Errors.

Import Errors.

(* ================================================================== *)
(** ** JavaScript values *)
(* ================================================================== *)

Module JS.

(** JS numbers, restricted to the integers and NaN.  Fractions, infinities
    and the loss of precision above 2^53 are outside this model. *)
Inductive num : Type :=
| Int (z : Z)
| NaN.

(** The values an [any]-typed section can hold: what an XML or JSON reader
    produces.  Strings are sequences of 8-bit code units.  An object is its
    list of own properties in insertion order; a key is meant to occur once,
    and a read takes the first occurrence. *)
Inductive value : Type :=
| VUndef
| VNull
| VBool (b : bool)
| VNum (n : num)
| VStr (s : string)
| VArr (l : list value)
| VObj (fields : list (string * value)).

(** Computations that may throw. *)
Inductive result (A : Type) : Type :=
| Ok (a : A)
| Throw (e : exn).
Arguments Ok {A} a.
Arguments Throw {A} e.

Definition bind {A B} (m : result A) (k : A -> result B) : result B :=
  match m with
  | Ok a => k a
  | Throw e => Throw e
  end.

Notation "'let*' x ':=' m 'in' k" := (bind m (fun x => k))
  (at level 10, x name, m at level 100, k at level 200).

(** [xs.map(f)] / [xs.forEach(...push...)] with a callback that may throw:
    elements are visited left to right and the first exception escapes. *)
Fixpoint mapM {A B} (f : A -> result B) (xs : list A) : result (list B) :=
  match xs with
  | [] => Ok []
  | x :: r => let* y := f x in let* ys := mapM f r in Ok (y :: ys)
  end.

(** ToBoolean. *)
Definition truthy (v : value) : bool :=
  match v with
  | VUndef | VNull => false
  | VBool b => b
  | VNum (Int z) => negb (z =? 0)
  | VNum NaN => false
  | VStr s => negb (s =? "")%string
  | VArr _ | VObj _ => true
  end.

(** [a || b] on already evaluated operands. *)
Definition or_else (a b : value) : value := if truthy a then a else b.
Infix "|||" := or_else (at level 50, left associativity).

Fixpoint assoc (k : string) (fs : list (string * value)) : value :=
  match fs with
  | [] => VUndef
  | (k', v) :: r => if (k =? k')%string then v else assoc k r
  end.

(** Property read [v.k] for a data key [k].  Reading from [undefined] or
    [null] throws; primitives and arrays have none of the data keys the
    sources read, apart from [length]. *)
Definition get (v : value) (k : string) : result value :=
  match v with
  | VUndef => Throw (TypeError ("Cannot read properties of undefined (reading '" ++ k ++ "')"))
  | VNull => Throw (TypeError ("Cannot read properties of null (reading '" ++ k ++ "')"))
  | VObj fs => Ok (assoc k fs)
  | VStr s => Ok (if (k =? "length")%string then VNum (Int (Z.of_nat (String.length s))) else VUndef)
  | VArr l => Ok (if (k =? "length")%string then VNum (Int (Z.of_nat (List.length l))) else VUndef)
  | VBool _ | VNum _ => Ok VUndef
  end.

(** Optional chaining [v?.k]. *)
Definition get_opt (v : value) (k : string) : value :=
  match v with
  | VUndef | VNull => VUndef
  | _ => match get v k with Ok x => x | Throw _ => VUndef end
  end.

Definition isArray (v : value) : bool :=
  match v with VArr _ => true | _ => false end.

(** [Array.isArray(v) ? v : [v]]. *)
Definition arrayOrSingleton (v : value) : list value :=
  match v with VArr l => l | _ => [v] end.

(** Strict equality with a string literal / with [true]. *)
Definition strict_eq_str (v : value) (s : string) : bool :=
  match v with VStr t => (t =? s)%string | _ => false end.

Definition strict_eq_true (v : value) : bool :=
  match v with VBool true => true | _ => false end.

(** Decimal rendering of an integer, as Number.prototype.toString does. *)
Definition decimal (z : Z) : string := NilZero.string_of_int (Z.to_int z).

(** ToString. *)
Fixpoint toString (v : value) : string :=
  match v with
  | VUndef => "undefined"
  | VNull => "null"
  | VBool true => "true"
  | VBool false => "false"
  | VNum (Int z) => decimal z
  | VNum NaN => "NaN"
  | VStr s => s
  | VArr l =>
      (fix join (l : list value) : string :=
         match l with
         | [] => ""
         | x :: r =>
             (match x with VUndef | VNull => "" | _ => toString x end)
             ++ (match r with [] => "" | _ :: _ => "," ++ join r end)
         end) l
  | VObj _ => "[object Object]"
  end.

(** *** Strings *)

Definition is_digit (c : ascii) : bool :=
  let n := nat_of_ascii c in (Nat.leb 48 n && Nat.leb n 57)%bool.

Definition digit_val (c : ascii) : Z := Z.of_nat (nat_of_ascii c) - 48.

(** StrWhiteSpaceChar below code unit 256. *)
Definition is_space (c : ascii) : bool :=
  let n := nat_of_ascii c in
  (Nat.eqb n 9 || Nat.eqb n 10 || Nat.eqb n 11 || Nat.eqb n 12 || Nat.eqb n 13
   || Nat.eqb n 32 || Nat.eqb n 160)%bool.

Fixpoint skip_spaces (s : string) : string :=
  match s with
  | String c r => if is_space c then skip_spaces r else s
  | EmptyString => s
  end.

(** Value of the longest digit prefix, [None] when it is empty. *)
Fixpoint digits_from (acc : option Z) (s : string) : option Z :=
  match s with
  | String c r =>
      if is_digit c
      then digits_from (Some (10 * match acc with Some a => a | None => 0 end + digit_val c)) r
      else acc
  | EmptyString => acc
  end.

(** [parseInt(s, 10)] on a string. *)
Definition parseInt_str (s : string) : num :=
  let t := skip_spaces s in
  let '(sign, body) :=
    match t with
    | String "-" r => (-1, r)
    | String "+" r => (1, r)
    | _ => (1, t)
    end in
  match digits_from None body with
  | Some n => Int (sign * n)
  | None => NaN
  end.

(** [parseInt(v, 10)]: the argument goes through ToString first. *)
Definition parseInt (v : value) : num := parseInt_str (toString v).

Definition lower_ascii (c : ascii) : ascii :=
  let n := nat_of_ascii c in
  if (Nat.leb 65 n && Nat.leb n 90)%bool then ascii_of_nat (n + 32) else c.

(** [s.toLowerCase()] on the ASCII letters. *)
Fixpoint toLowerCase (s : string) : string :=
  match s with
  | String c r => String (lower_ascii c) (toLowerCase r)
  | EmptyString => EmptyString
  end.

(** [s.includes(sub)]. *)
Fixpoint includes (s sub : string) : bool :=
  (String.prefix sub s ||
   match s with
   | String _ r => includes r sub
   | EmptyString => false
   end)%bool.

(** [Math.max(a, x)] and [Math.min(a, x)] with an integer literal [a]. *)
Definition math_max (a : Z) (x : num) : num :=
  match x with Int z => Int (Z.max a z) | NaN => NaN end.

Definition math_min (a : Z) (x : num) : num :=
  match x with Int z => Int (Z.min a z) | NaN => NaN end.

End JS.

Import JS.

(* ================================================================== *)
(** ** The decompressor *)
(* ================================================================== *)

Module Decompress.

Definition Buffer : Type := list Byte.byte.

Section WithZlib.

(** Node's zlib bindings and the UTF-8 decoder of [Buffer.toString]: each
    inflate call either throws an [Error] with a message or yields bytes. *)
Variable inflateSync : Buffer -> string + Buffer.
Variable inflateRawSync : Buffer -> string + Buffer.
Variable utf8 : Buffer -> string.

(** The [Buffer.isBuffer] guard cannot fail on a [Buffer]. *)
Definition decompressZlib (compressed : Buffer) : result string :=
  if (List.length compressed =? 0)%nat
  then Throw (PoBParsingError DECOMPRESSION_ERROR "Compressed buffer is empty" None)
  else
    match inflateSync compressed with
    | inr decompressed =>
        if (List.length decompressed =? 0)%nat
        then Throw (PoBParsingError DECOMPRESSION_ERROR "Decompressed buffer is empty" None)
        else Ok (utf8 decompressed)
    | inl msg =>
        Throw (PoBParsingError DECOMPRESSION_ERROR "Failed to decompress zlib data" (Some msg))
    end.

(** The inner [try] covers both the raw inflate and the re-throw of
    [zlibError] on an empty output, so either way the inner [catch] builds
    the combined error. *)
Definition decompressWithFallback (compressed : Buffer) : result string :=
  match decompressZlib compressed with
  | Ok s => Ok s
  | Throw zlibError =>
      let both :=
        Throw (PoBParsingError DECOMPRESSION_ERROR
                 "Failed to decompress with both zlib and raw deflate"
                 (Some ("zlib: " ++ Errors.exn_message zlibError))) in
      match inflateRawSync compressed with
      | inr decompressed =>
          if (List.length decompressed =? 0)%nat then both
          else Ok (utf8 decompressed)
      | inl _rawError => both
      end
  end.

End WithZlib.

End Decompress.

(* ================================================================== *)
(** ** parsers/pob-xml-parser.ts: the version gate *)
(* ================================================================== *)

Module Xml.

Definition minVersion : string := "1.4.170".

(** [v < s] for a string [s] that is not a numeric literal (ToNumber gives
    NaN): two strings compare by code units; an object or array is first
    turned into its string; any other left operand is compared as a number
    with NaN, which is false. *)
Definition lt_string (v : value) (s : string) : bool :=
  match v with
  | VStr t => String.ltb t s
  | VArr _ | VObj _ => String.ltb (toString v) s
  | _ => false
  end.

Definition validatePoBVersion (pobXML : value) : result unit :=
  let* version := get pobXML "version" in
  if negb (truthy version)
  then Throw (PoBParsingError UNSUPPORTED_VERSION "PoB version not specified" None)
  else if lt_string version minVersion
  then Throw (PoBParsingError UNSUPPORTED_VERSION
                ("PoB version " ++ toString version
                 ++ " is not supported (minimum: " ++ minVersion ++ ")") None)
  else Ok tt.

End Xml.

(* ================================================================== *)
(** ** The character extractor *)
(* ================================================================== *)

Module CharacterParser.

Record Character : Type := mkCharacter {
  class : value;
  ascendancy : value;
  level : num;
  league : value
}.

Definition defaultCharacter : Character :=
  mkCharacter (VStr "Witch") VNull (Int 1) VNull.

Definition parseCharacter (buildSection : value) : result Character :=
  if negb (truthy buildSection) then Ok defaultCharacter
  else
    let* mainSocket := get buildSection "MainSocket" in
    let* bclass := get buildSection "class" in
    let characterClass := get_opt mainSocket "class" ||| bclass ||| VStr "Witch" in
    let* basc := get buildSection "ascendancy" in
    let ascendancy := get_opt mainSocket "ascendancyName" ||| basc ||| VNull in
    let* blevel := get buildSection "level" in
    let level := parseInt (blevel ||| get_opt mainSocket "level" ||| VStr "1") in
    let* bleague := get buildSection "league" in
    let league := bleague ||| VNull in
    Ok (mkCharacter characterClass ascendancy (math_min 100 (math_max 1 level)) league).

(** A level that is an integer of 1..100. *)
Definition levelInRange (n : num) : Prop :=
  match n with
  | Int z => 1 <= z <= 100
  | NaN => False
  end.

End CharacterParser.

(* ================================================================== *)
(** ** The skills extractor *)
(* ================================================================== *)

Module SupportGem.
Record t : Type := mk {
  name : value;
  gemLevel : num;
  quality : num
}.
End SupportGem.

Module SkillParser.

Record SkillSetup : Type := mkSkillSetup {
  id : string;
  skillName : value;
  gemLevel : num;
  quality : num;
  supports : list SupportGem.t;
  linkCount : Z;
  isMainSkill : value
}.

(** The callbacks of [filter] and [map] in [parseSupportGems]. *)
Definition isSupport (gem : value) : result bool :=
  let* ty := get gem "type" in Ok (strict_eq_str ty "Support").

Definition toSupportGem (gem : value) : result SupportGem.t :=
  let* name := get gem "name" in
  let* level := get gem "level" in
  let* quality := get gem "quality" in
  Ok (SupportGem.mk (name ||| VStr "Unknown")
        (parseInt (level ||| VStr "1"))
        (parseInt (quality ||| VStr "0"))).

Fixpoint filterM {A} (p : A -> result bool) (xs : list A) : result (list A) :=
  match xs with
  | [] => Ok []
  | x :: r =>
      let* b := p x in
      let* ys := filterM p r in
      Ok (if b then x :: ys else ys)
  end.

Definition parseSupportGems (skill : value) : result (list SupportGem.t) :=
  let* gems := get skill "gems" in
  if negb (truthy gems) then Ok []
  else
    let* gem := get gems "Gem" in
    match gem with
    | VArr l => let* kept := filterM isSupport l in mapM toSupportGem kept
    | _ => Ok []
    end.

Definition calculateLinkCount (skill : value) : result Z :=
  let* gems := get skill "gems" in
  let gem := get_opt gems "Gem" in
  let supportCount :=
    if truthy gem
    then match gem with VArr l => Z.of_nat (List.length l) | _ => 1 end
    else 0 in
  Ok (supportCount + 1).

(** The body of the [forEach] callback of [parseSkills]; [index] is 0-based. *)
Definition parseSkill (skill : value) (index : Z) : result SkillSetup :=
  let* gem := get skill "gem" in
  let* sname := get skill "name" in
  let* slevel := get skill "level" in
  let* squality := get skill "quality" in
  let* supports := parseSupportGems skill in
  let* linkCount := calculateLinkCount skill in
  let* mainActive := get skill "mainActive" in
  Ok (mkSkillSetup
        ("skill-" ++ decimal (index + 1))
        (get_opt gem "name" ||| sname ||| VStr "Unknown")
        (parseInt (get_opt gem "level" ||| slevel ||| VStr "1"))
        (parseInt (get_opt gem "quality" ||| squality ||| VStr "0"))
        supports
        linkCount
        (mainActive ||| VBool false)).

Fixpoint forEachIndexed (skills : list value) (index : Z) : result (list SkillSetup) :=
  match skills with
  | [] => Ok []
  | skill :: r =>
      let* setup := parseSkill skill index in
      let* rest := forEachIndexed r (index + 1) in
      Ok (setup :: rest)
  end.

(** The guard returns [[]] unless [Skill] is an array, so the later
    [Array.isArray(...) ? ... : [skillsSection.Skill]] always takes its
    first branch. *)
Definition parseSkills (skillsSection : value) : result (list SkillSetup) :=
  if negb (truthy skillsSection) then Ok []
  else
    let* skill := get skillsSection "Skill" in
    match skill with
    | VArr skillArray => forEachIndexed skillArray 0
    | _ => Ok []
    end.

End SkillParser.

(* ================================================================== *)
(** ** The gear extractor *)
(* ================================================================== *)

Module GearParser.

Definition GEAR_SLOTS : list string :=
  [ "Weapon1"; "Weapon2"; "Helmet"; "BodyArmour"; "Gloves"; "Boots"; "Amulet";
    "Ring1"; "Ring2"; "Belt"; "Flask1"; "Flask2"; "Flask3"; "Flask4"; "Flask5" ].

Inductive AffixType : Type := explicit | implicit_affix | corrupted_implicit.

(** [value] is [number | null]: [None] is [null]. *)
Record Affix : Type := mkAffix {
  type : AffixType;
  text : value;
  value_ : option num;
  unparsed : bool
}.

(** [slot] is whatever truthy value the item carried, or an inferred name;
    [implicit] is [string | null]. *)
Record GearSlot : Type := mkGearSlot {
  slot : value;
  itemName : value;
  baseType : value;
  itemClass : value;
  affixes : list Affix;
  implicit : value;
  corrupted : bool;
  influences : list value
}.

Definition createEmptySlot (slot : string) : GearSlot :=
  mkGearSlot (VStr slot) (VStr "Empty") (VStr "") (VStr "") [] VNull false [].

Definition determineAffixType (mod_ : value) : result AffixType :=
  let* ty := get mod_ "type" in
  if strict_eq_str ty "implicit" then Ok implicit_affix
  else
    let* c := get mod_ "corrupted" in
    if (strict_eq_true c || strict_eq_str c "true")%bool then Ok corrupted_implicit
    else Ok explicit.

Definition in_class (c : ascii) : bool := (Ascii.eqb c "-" || is_digit c)%bool.

Fixpoint take_class (s : string) : string :=
  match s with
  | String c r => if in_class c then String c (take_class r) else EmptyString
  | EmptyString => EmptyString
  end.

(** First match of [/([-\d]+)/]: the leftmost maximal run of digits and
    minus signs. *)
Fixpoint first_run (s : string) : option string :=
  match s with
  | String c r => if in_class c then Some (take_class s) else first_run r
  | EmptyString => None
  end.

(** [text.match] exists on strings only. *)
Definition parseAffixValue (text : value) : result (option num) :=
  match text with
  | VStr s =>
      match first_run s with
      | Some m => Ok (Some (parseInt_str m))
      | None => Ok None
      end
  | _ => Throw (TypeError "text.match is not a function")
  end.

Definition parseAffix (mod_ : value) : result Affix :=
  let* ty := determineAffixType mod_ in
  let* str := get mod_ "str" in
  let* dollar := get mod_ "$" in
  let text := str ||| dollar ||| VStr "" in
  let* v := parseAffixValue text in
  let* mv := get mod_ "value" in
  Ok (mkAffix ty text v (match mv with VUndef => true | _ => false end)).

Definition parseAffixes (item : value) : result (list Affix) :=
  let* mods := get item "mods" in
  if negb (truthy mods) then Ok []
  else
    let* m := get mods "mod" in
    if negb (truthy m) then Ok []
    else mapM parseAffix (arrayOrSingleton m).

Definition parseInfluences (item : value) : result (list value) :=
  let* infl := get item "influences" in
  if truthy infl then
    match infl with
    | VStr _ => Ok [infl]
    | VArr l => Ok l
    | VObj fs =>
        Ok (map (fun key => VStr key)
              (filter (fun key =>
                         (strict_eq_true (assoc key fs) || strict_eq_str (assoc key fs) "true")%bool)
                      (map fst fs)))
    | _ => Ok []
    end
  else Ok [].

(** [null] is [None]. *)
Definition determineSlotType (item : value) : result (option value) :=
  let* slot := get item "slot" in
  if truthy slot then Ok (Some slot)
  else
    let* dollar := get item "$" in
    if negb (truthy dollar) then Ok None
    else
      match dollar with
      | VStr s =>
          if includes (toLowerCase s) "flask" then Ok (Some (VStr "Flask1")) else Ok None
      | _ => Throw (TypeError "item.$.toLowerCase is not a function")
      end.

Definition parseGearSlot (item : value) : result (option GearSlot) :=
  if negb (truthy item) then Ok None
  else
    let* itemName := get item "$" in
    if negb (truthy itemName) then Ok None
    else
      let* slotType := determineSlotType item in
      match slotType with
      | None => Ok None
      | Some slotType =>
          let* baseType := get item "baseType" in
          let* itemClass := get item "itemClass" in
          let* affixes := parseAffixes item in
          let* implicit := get item "implicit" in
          let* corrupted := get item "corrupted" in
          let* influences := parseInfluences item in
          Ok (Some (mkGearSlot slotType itemName
                      (baseType ||| VStr "") (itemClass ||| VStr "")
                      affixes (implicit ||| VNull)
                      (strict_eq_true corrupted || strict_eq_str corrupted "true")%bool
                      influences))
      end.

(** [items.forEach(item => { const slot = parseGearSlot(item); if (slot) gear.push(slot) })]. *)
Fixpoint collectSlots (items : list value) : result (list GearSlot) :=
  match items with
  | [] => Ok []
  | item :: r =>
      let* slot := parseGearSlot item in
      let* rest := collectSlots r in
      Ok (match slot with Some g => g :: rest | None => rest end)
  end.

(** [gear.find((g) => g.slot === slotType) || createEmptySlot(slotType)]. *)
Definition fillSlot (gear : list GearSlot) (slotType : string) : GearSlot :=
  match find (fun g => strict_eq_str (slot g) slotType) gear with
  | Some existing => existing
  | None => createEmptySlot slotType
  end.

Definition parseGear (gearSection : value) : result (list GearSlot) :=
  if negb (truthy gearSection) then Ok (map createEmptySlot GEAR_SLOTS)
  else
    let* item := get gearSection "Item" in
    if negb (truthy item) then Ok (map createEmptySlot GEAR_SLOTS)
    else
      let* gear := collectSlots (arrayOrSingleton item) in
      Ok (map (fillSlot gear) GEAR_SLOTS).

(** The raw items [parseGear] walks over. *)
Definition sectionItems (gearSection : value) : list value :=
  if truthy gearSection then
    let item := get_opt gearSection "Item" in
    if truthy item then arrayOrSingleton item else []
  else [].

(** The raw modifiers [parseAffixes] walks over. *)
Definition itemMods (item : value) : list value :=
  let mods := get_opt item "mods" in
  if truthy mods then
    let m := get_opt mods "mod" in
    if truthy m then arrayOrSingleton m else []
  else [].

Definition isString (v : value) : bool :=
  match v with VStr _ => true | _ => false end.

(** A modifier that is there and whose display text is a string. *)
Definition modWellTyped (mod_ : value) : bool :=
  match mod_ with
  | VUndef | VNull => false
  | _ => isString (get_opt mod_ "str" ||| get_opt mod_ "$" ||| VStr "")
  end.

(** An item whose name is a string when it has one, and whose modifiers
    are well typed. *)
Definition itemWellTyped (item : value) : bool :=
  (negb (truthy item)
   || ((negb (truthy (get_opt item "$")) || isString (get_opt item "$"))
       && forallb modWellTyped (itemMods item)))%bool.

(** The invariant of the returned list. *)
Definition fifteenSlots (gearSection : value) (slots : list GearSlot) : Prop :=
  List.length slots = 15%nat
  /\ map slot slots = map VStr GEAR_SLOTS
  /\ NoDup (map slot slots)
  /\ Forall (fun g =>
               (exists name, In name GEAR_SLOTS /\ g = createEmptySlot name)
               \/ (exists item, In item (sectionItems gearSection)
                                /\ parseGearSlot item = Ok (Some g)))
            slots.

End GearParser.

(* ================================================================== *)
(** ** The build cache *)
(* ================================================================== *)

Module Cache.

(** [CACHE_MAX_SIZE] and [CACHE_TTL_MS] as read from the environment
    (defaults 100 and 3600000).  For the LRU cache library a [max] of 0
    means no entry limit and a [ttl] of 0 means no expiry. *)
Record Config : Type := mkConfig {
  CACHE_MAX_SIZE : nat;
  CACHE_TTL_MS : Z
}.

Definition defaultConfig : Config := mkConfig 100 3600000.

Section WithValue.

Variable V : Type.

Record Entry : Type := mkEntry {
  key : string;
  val : V;
  start : Z
}.

(** The LRU cache of the library the source instantiates, as its
    documentation describes it: entries are kept most recently used first;
    an entry is stale once more than [ttl] milliseconds passed since its
    start; [get] drops a stale entry and otherwise moves the entry to the
    front and, with [updateAgeOnGet], restarts its age; [set] puts the
    entry in front and evicts from the back beyond [max]. *)
Definition LRUCache : Type := list Entry.

Fixpoint lookup (k : string) (c : LRUCache) : option Entry :=
  match c with
  | [] => None
  | e :: r => if (key e =? k)%string then Some e else lookup k r
  end.

Definition remove (k : string) (c : LRUCache) : LRUCache :=
  filter (fun e => negb (key e =? k)%string) c.

Definition isStale (cfg : Config) (now : Z) (e : Entry) : bool :=
  (negb (CACHE_TTL_MS cfg =? 0) && (now - start e >? CACHE_TTL_MS cfg))%bool.

Definition evict (cfg : Config) (c : LRUCache) : LRUCache :=
  match CACHE_MAX_SIZE cfg with
  | O => c
  | max => firstn max c
  end.

Definition get (cfg : Config) (now : Z) (k : string) (c : LRUCache) : option V * LRUCache :=
  match lookup k c with
  | None => (None, c)
  | Some e =>
      if isStale cfg now e then (None, remove k c)
      else (Some (val e), mkEntry k (val e) now :: remove k c)
  end.

Definition set (cfg : Config) (now : Z) (k : string) (v : V) (c : LRUCache) : LRUCache :=
  evict cfg (mkEntry k v now :: remove k c).

End WithValue.

Arguments key {V} e.
Arguments val {V} e.
Arguments start {V} e.
Arguments mkEntry {V} key val start.
Arguments lookup {V} k c.
Arguments remove {V} k c.
Arguments isStale {V} cfg now e.
Arguments evict {V} cfg c.
Arguments get {V} cfg now k c.
Arguments set {V} cfg now k v c.

End Cache.

(* ================================================================== *)
(** ** The parse_pob_code handler *)
(* ================================================================== *)

Module ParseTool.

Section WithCollaborators.

(** The passive tree and stat list types; their extractors are taken as
    given. *)
Variables PassiveTree Stats : Type.

Record ParsedBuild : Type := mkParsedBuild {
  buildId : string;
  version : value;
  gameVersion : value;
  character : CharacterParser.Character;
  skills : list SkillParser.SkillSetup;
  passives : PassiveTree;
  gear : list GearParser.GearSlot;
  stats : Stats;
  parsedAt : string
}.

(** What the handler takes from outside the modelled sources: the hash and
    Base64 and zlib bindings of the runtime, the XML reader, the two
    extractors not modelled here, and the stack trace text of an error. *)
Record Collaborators : Type := mkCollaborators {
  sha256hex : string -> string;
  bufferFromBase64 : string -> Decompress.Buffer;
  inflateSync : Decompress.Buffer -> string + Decompress.Buffer;
  inflateRawSync : Decompress.Buffer -> string + Decompress.Buffer;
  utf8 : Decompress.Buffer -> string;
  xmlParse : string -> string + value;
  parsePassives : value -> result PassiveTree;
  parseStats : value -> result Stats;
  stack : string -> string
}.

Variable E : Collaborators.
Variable cfg : Cache.Config.

(** [s.trim()]. *)
Fixpoint trimEnd (s : string) : string :=
  match s with
  | String c r =>
      match trimEnd r with
      | EmptyString => if is_space c then EmptyString else String c EmptyString
      | r' => String c r'
      end
  | EmptyString => EmptyString
  end.

Definition trim (s : string) : string := trimEnd (skip_spaces s).

Definition is_base64_char (c : ascii) : bool :=
  let n := nat_of_ascii c in
  ((Nat.leb 65 n && Nat.leb n 90) || (Nat.leb 97 n && Nat.leb n 122) || is_digit c
   || Ascii.eqb c "+" || Ascii.eqb c "/" || Ascii.eqb c "=")%bool.

Fixpoint all_chars (p : ascii -> bool) (s : string) : bool :=
  match s with
  | String c r => (p c && all_chars p r)%bool
  | EmptyString => true
  end.

Definition decodeBase64 (input : string) : result Decompress.Buffer :=
  if (String.length (trim input) =? 0)%nat
  then Throw (PoBParsingError INVALID_BASE64 "Input must be a non-empty base64 string" None)
  else if negb (all_chars is_base64_char (trim input))
  then Throw (PoBParsingError INVALID_BASE64 "Input contains invalid base64 characters" None)
  else
    let decoded := bufferFromBase64 E (trim input) in
    if (List.length decoded =? 0)%nat
    then Throw (PoBParsingError INVALID_BASE64 "Decoded buffer is empty" None)
    else Ok decoded.

Definition invalidXml (msg : string) : exn :=
  PoBParsingError INVALID_XML "Failed to parse XML structure" (Some msg).

Definition parsePoBXML (buildCode : string) : result value :=
  let* decodedBuffer := decodeBase64 buildCode in
  let* xmlString :=
    Decompress.decompressWithFallback (inflateSync E) (inflateRawSync E) (utf8 E) decodedBuffer in
  match xmlParse E xmlString with
  | inl msg => Throw (invalidXml msg)
  | inr parsed =>
      match get parsed "PathOfBuilding" with
      | Throw e => Throw (invalidXml (Errors.exn_message e))
      | Ok root =>
          if negb (truthy root)
          then Throw (PoBParsingError INVALID_XML "Root element must be <PathOfBuilding>" None)
          else Ok root
      end
  end.

Definition generateCacheKey (buildCode : string) : string := sha256hex E buildCode.

Definition getCachedBuild (now : Z) (buildCode : string) (c : Cache.LRUCache ParsedBuild)
  : option ParsedBuild * Cache.LRUCache ParsedBuild :=
  Cache.get cfg now (generateCacheKey buildCode) c.

Definition setCachedBuild (now : Z) (buildCode : string) (build : ParsedBuild)
  (c : Cache.LRUCache ParsedBuild) : Cache.LRUCache ParsedBuild :=
  Cache.set cfg now (generateCacheKey buildCode) build c.

(** Lines 57-84 of the handler: decode, gate, extract, assemble.  [date]
    is the text of [new Date().toISOString()]. *)
Definition assemble (date : string) (buildCode : string) : result ParsedBuild :=
  let* pobXML := parsePoBXML buildCode in
  let* _ := Xml.validatePoBVersion pobXML in
  let* gv := get pobXML "gameVersion" in
  let gameVersion := gv ||| VStr "3.25.0" in
  let* sBuild := get pobXML "Build" in
  let* character := CharacterParser.parseCharacter sBuild in
  let* sSkills := get pobXML "Skills" in
  let* skills := SkillParser.parseSkills sSkills in
  let* sTree := get pobXML "Tree" in
  let* passives := parsePassives E sTree in
  let* sGear := get pobXML "Gear" in
  let* gear := GearParser.parseGear sGear in
  let* sStats := get pobXML "Stats" in
  let* stats := parseStats E sStats in
  let* version := get pobXML "version" in
  Ok (mkParsedBuild "" version gameVersion character skills passives gear stats date).

(** The payload that is handed to [JSON.stringify]. *)
Inductive Response : Type :=
| Success (build : ParsedBuild)
| Failure (error : Errors.McpError).

(** The process state: the module-level cache, and a ghost counter of how
    often the decode-and-extract pipeline was entered. *)
Record State : Type := mkState {
  buildCache : Cache.LRUCache ParsedBuild;
  pipelineRuns : nat
}.

Definition initialState : State := mkState [] 0.

(** One call, at monotonic time [now] (milliseconds) and wall-clock text
    [date]. *)
Definition handler (now : Z) (date : string) (buildCode : string) (st : State)
  : Response * State :=
  match getCachedBuild now buildCode (buildCache st) with
  | (Some cached, c) => (Success cached, mkState c (pipelineRuns st))
  | (None, c) =>
      match assemble date buildCode with
      | Ok build =>
          (Success build, mkState (setCachedBuild now buildCode build c) (S (pipelineRuns st)))
      | Throw e =>
          (Failure (Errors.wrapError (stack E) e "parse_pob_code"),
           mkState c (S (pipelineRuns st)))
      end
  end.

(** States the process can be in: any number of calls after start-up. *)
Inductive reachable : State -> Prop :=
| reach_init : reachable initialState
| reach_call (st : State) (now : Z) (date buildCode : string) :
    reachable st -> reachable (snd (handler now date buildCode st)).

End WithCollaborators.

Arguments mkParsedBuild {PassiveTree Stats}.
Arguments buildId {PassiveTree Stats} p.
Arguments version {PassiveTree Stats} p.
Arguments gameVersion {PassiveTree Stats} p.
Arguments character {PassiveTree Stats} p.
Arguments skills {PassiveTree Stats} p.
Arguments passives {PassiveTree Stats} p.
Arguments gear {PassiveTree Stats} p.
Arguments stats {PassiveTree Stats} p.
Arguments parsedAt {PassiveTree Stats} p.
Arguments mkCollaborators {PassiveTree Stats}.
Arguments sha256hex {PassiveTree Stats} c.
Arguments stack {PassiveTree Stats} c.
Arguments parsePoBXML {PassiveTree Stats} E buildCode.
Arguments decodeBase64 {PassiveTree Stats} E input.
Arguments generateCacheKey {PassiveTree Stats} E buildCode.
Arguments getCachedBuild {PassiveTree Stats} E cfg now buildCode c.
Arguments setCachedBuild {PassiveTree Stats} E cfg now buildCode build c.
Arguments assemble {PassiveTree Stats} E date buildCode.
Arguments Success {PassiveTree Stats} build.
Arguments Failure {PassiveTree Stats} error.
Arguments mkState {PassiveTree Stats}.
Arguments buildCache {PassiveTree Stats} s.
Arguments pipelineRuns {PassiveTree Stats} s.
Arguments initialState {PassiveTree Stats}.
Arguments handler {PassiveTree Stats} E cfg now date buildCode st.
Arguments reachable {PassiveTree Stats} E cfg st.
Arguments reach_init {PassiveTree Stats} E cfg.
Arguments reach_call {PassiveTree Stats} E cfg st now date buildCode.

(** The time to live has not run out between a use at [t1] and a lookup
    at [t2]. *)
Definition ttlNotElapsed (cfg : Cache.Config) (t1 t2 : Z) : Prop :=
  Cache.CACHE_TTL_MS cfg = 0 \/ t2 - t1 <= Cache.CACHE_TTL_MS cfg.

(** Every cached build has the empty [buildId]. *)
Definition cacheClean {PassiveTree Stats : Type}
  (c : Cache.LRUCache (ParsedBuild PassiveTree Stats)) : Prop :=
  Forall (fun e => buildId (Cache.val e) = "") c.

(** Stand-ins for the collaborators, to run the handler on examples: the
    identity for the hash, one byte for every decoded and inflated buffer,
    and an XML reader that returns [doc] whatever the text. *)
Definition stubCollaborators (doc : value) : Collaborators unit unit :=
  mkCollaborators
    (fun s => s)
    (fun _ => [Byte.x01])
    (fun _ => inr [Byte.x01])
    (fun _ => inl "unexpected end of file")
    (fun _ => "<PathOfBuilding/>")
    (fun _ => inr doc)
    (fun _ => Ok tt)
    (fun _ => Ok tt)
    (fun _ => "").

Definition sampleDocument : value :=
  VObj [("PathOfBuilding",
         VObj [("version", VStr "1.4.170");
               ("Build", VObj [("level", VStr "92"); ("class", VStr "Ranger")])])].

End ParseTool.

(* ================================================================== *)
(** ** The defensive analyzer *)
(* ================================================================== *)

Module Defense.

Inductive DefensiveRating : Type := glass_cannon | moderate | tanky | uber_viable.

(** The result of [extractDefensiveStats]; stat values are taken to be
    integers. *)
Record DefensiveStats : Type := mkStats {
  life : Z;
  energyShield : Z;
  fireResist : Z;
  coldResist : Z;
  lightningResist : Z;
  chaosResist : Z;
  armor : Z;
  evasion : Z
}.

(** A keystone of the passive tree; [name] may be missing, which the
    source allows for with [k.name?.]. *)
Record Keystone : Type := mkKeystone {
  id : string;
  name : option string;
  effect : string
}.

Definition getMinElementalResist (stats : DefensiveStats) : Z :=
  Z.min (Z.min (fireResist stats) (coldResist stats)) (lightningResist stats).

Definition isResistCapped (stats : DefensiveStats) : bool :=
  ((fireResist stats >=? 75) && (coldResist stats >=? 75) && (lightningResist stats >=? 75))%bool.

Definition effectiveLife (stats : DefensiveStats) (hasChaosInoculation : bool) : Z :=
  if hasChaosInoculation then energyShield stats
  else Z.max (life stats) (energyShield stats).

Definition classifyDefense (stats : DefensiveStats) (hasChaosInoculation : bool)
  : DefensiveRating :=
  let minResist := getMinElementalResist stats in
  let effectiveLife := effectiveLife stats hasChaosInoculation in
  if ((effectiveLife >? 5000) && isResistCapped stats
      && ((armor stats >? 10000) || (evasion stats >? 10000)))%bool
  then uber_viable
  else if ((effectiveLife >? 4000) && isResistCapped stats)%bool
  then tanky
  else if ((effectiveLife >? 2500) && (minResist >=? 50))%bool
  then moderate
  else glass_cannon.

(** [build.passives?.keystones?.some(...) || false], on the keystone list
    when there is one. *)
Definition hasChaosInoculation (keystones : option (list Keystone)) : bool :=
  match keystones with
  | Some ks =>
      existsb (fun k =>
                 (match name k with
                  | Some n => includes (toLowerCase n) "chaos inoculation"
                  | None => false
                  end
                  || (id k =? "16226")%string)%bool) ks
  | None => false
  end.

(** The [rating] field of [analyzeDefense]'s result, from the extracted
    stats and the keystone list of the build. *)
Definition analyzeDefenseRating (stats : DefensiveStats) (keystones : option (list Keystone))
  : DefensiveRating :=
  classifyDefense stats (hasChaosInoculation keystones).

(** The three tests of the cascade, as propositions. *)
Definition uberTest (st : DefensiveStats) (ci : bool) : Prop :=
  effectiveLife st ci > 5000
  /\ (fireResist st >= 75 /\ coldResist st >= 75 /\ lightningResist st >= 75)
  /\ (armor st > 10000 \/ evasion st > 10000).

Definition tankyTest (st : DefensiveStats) (ci : bool) : Prop :=
  effectiveLife st ci > 4000
  /\ (fireResist st >= 75 /\ coldResist st >= 75 /\ lightningResist st >= 75).

Definition moderateTest (st : DefensiveStats) (ci : bool) : Prop :=
  effectiveLife st ci > 2500
  /\ Z.min (Z.min (fireResist st) (coldResist st)) (lightningResist st) >= 50.

End Defense.

(* ================================================================== *)
(** ** The suggest_improvements handler: rescoring *)
(* ================================================================== *)

Module Suggest.

Inductive SuggestionCategory : Type := gems | passives | gear | utility.
Inductive SuggestionPriority : Type := critical | important | optional.
Inductive OffensiveRating : Type := low | moderate | high | extreme.
Inductive PlaystyleType : Type := clear | boss | hybrid | unknown.

Record Suggestion : Type := mkSuggestion {
  category : SuggestionCategory;
  priority : SuggestionPriority;
  description : string;
  specificAction : string;
  expectedImpact : string
}.

Record BuildAnalysis : Type := mkBuildAnalysis {
  strengths : list string;
  weaknesses : list string;
  playstyleType : PlaystyleType;
  defensiveRating : Defense.DefensiveRating;
  offensiveRating : OffensiveRating;
  analyzedAt : string
}.

Definition criticalWeaknesses : list string :=
  [ "uncapped"; "low life"; "no chaos"; "low energy shield"; "vulnerable"; "empty" ].

Definition priority_eqb (a b : SuggestionPriority) : bool :=
  match a, b with
  | critical, critical | important, important | optional, optional => true
  | _, _ => false
  end.

Definition category_eqb (a b : SuggestionCategory) : bool :=
  match a, b with
  | gems, gems | passives, passives | gear, gear | utility, utility => true
  | _, _ => false
  end.

Definition with_priority (s : Suggestion) (p : SuggestionPriority) : Suggestion :=
  mkSuggestion (category s) p (description s) (specificAction s) (expectedImpact s).

(** [criticalWeaknesses.some(i => analysis.weaknesses.some(w => w.toLowerCase().includes(i)))]. *)
Definition addressesCriticalWeakness (analysis : BuildAnalysis) : bool :=
  existsb (fun indicator =>
             existsb (fun w => includes (toLowerCase w) indicator) (weaknesses analysis))
          criticalWeaknesses.

Definition scoreSuggestionPriority (suggestion : Suggestion) (analysis : BuildAnalysis)
  : Suggestion :=
  let scored := suggestion in
  let scored :=
    if (addressesCriticalWeakness analysis && negb (priority_eqb (priority scored) critical))%bool
    then with_priority scored critical else scored in
  if negb (priority_eqb (priority scored) critical) then
    let scored :=
      if ((match defensiveRating analysis with
           | Defense.uber_viable | Defense.tanky => true
           | _ => false
           end)
          && (category_eqb (category scored) passives || category_eqb (category scored) gear)
          && priority_eqb (priority scored) important)%bool
      then with_priority scored optional else scored in
    if ((match offensiveRating analysis with extreme => true | _ => false end)
        && category_eqb (category scored) gems
        && priority_eqb (priority scored) important)%bool
    then with_priority scored optional else scored
  else scored.

(** The property the rescoring pass is described with: the description of
    the suggestion itself contains one of the phrases. *)
Definition descriptionIsCritical (s : Suggestion) : bool :=
  existsb (fun indicator => includes (toLowerCase (description s)) indicator) criticalWeaknesses.

End Suggest.

(* ================================================================== *)
(** ** The suggest_improvements handler: deduplicate, sort, cap *)
(* ================================================================== *)

Module Aggregator.
Import Suggest.

(** [xs] is [ys] with some elements left out, order kept. *)
Inductive Subseq {A : Type} : list A -> list A -> Prop :=
| subseq_nil : Subseq [] []
| subseq_skip (y : A) (xs ys : list A) : Subseq xs ys -> Subseq xs (y :: ys)
| subseq_keep (x : A) (xs ys : list A) : Subseq xs ys -> Subseq (x :: xs) (x :: ys).

Definition categoryName (c : SuggestionCategory) : string :=
  match c with
  | gems => "gems"
  | passives => "passives"
  | gear => "gear"
  | utility => "utility"
  end.

(** The key of [deduplicateSuggestions]: category, a colon, description. *)
Definition dedupKey (suggestion : Suggestion) : string :=
  categoryName (category suggestion) ++ ":" ++ description suggestion.

(** The loop of [deduplicateSuggestions], with the [seen] set as the list
    of its members. *)
Fixpoint dedupLoop (seen : list string) (suggestions : list Suggestion) : list Suggestion :=
  match suggestions with
  | [] => []
  | suggestion :: rest =>
      let key := dedupKey suggestion in
      if existsb (String.eqb key) seen then dedupLoop seen rest
      else suggestion :: dedupLoop (key :: seen) rest
  end.

Definition deduplicateSuggestions (suggestions : list Suggestion) : list Suggestion :=
  dedupLoop [] suggestions.

Definition priorityWeight (p : SuggestionPriority) : Z :=
  match p with
  | critical => 3
  | important => 2
  | optional => 1
  end.

(** [categoryOrder.indexOf(c)] for ["gear", "passives", "gems", "utility"]. *)
Definition categoryIndex (c : SuggestionCategory) : Z :=
  match c with
  | gear => 0
  | passives => 1
  | gems => 2
  | utility => 3
  end.

(** The comparator handed to [sort]. *)
Definition compareSuggestions (a b : Suggestion) : Z :=
  let priorityDiff := priorityWeight (priority b) - priorityWeight (priority a) in
  if negb (priorityDiff =? 0) then priorityDiff
  else categoryIndex (category a) - categoryIndex (category b).

(** [Array.prototype.sort] is a stable sort; with a comparator that orders
    by a key, as this one does, its result is the one stable arrangement,
    computed here by insertion from the right. *)
Fixpoint insertSorted (x : Suggestion) (sorted : list Suggestion) : list Suggestion :=
  match sorted with
  | [] => [x]
  | y :: rest =>
      if compareSuggestions x y <=? 0 then x :: sorted
      else y :: insertSorted x rest
  end.

Fixpoint sortSuggestions (suggestions : list Suggestion) : list Suggestion :=
  match suggestions with
  | [] => []
  | x :: rest => insertSorted x (sortSuggestions rest)
  end.

(** [categoryCount[c] = v]. *)
Definition setCount (categoryCount : SuggestionCategory -> Z) (c : SuggestionCategory) (v : Z)
  : SuggestionCategory -> Z :=
  fun c' => if category_eqb c' c then v else categoryCount c'.

(** The loop of [limitSuggestions]; a category without an entry counts 0. *)
Fixpoint limitLoop (maxPerCategory : Z) (categoryCount : SuggestionCategory -> Z)
  (suggestions : list Suggestion) : list Suggestion :=
  match suggestions with
  | [] => []
  | suggestion :: rest =>
      let count := categoryCount (category suggestion) in
      if ((count <? maxPerCategory) || priority_eqb (priority suggestion) critical)%bool
      then suggestion
           :: limitLoop maxPerCategory (setCount categoryCount (category suggestion) (count + 1)) rest
      else limitLoop maxPerCategory categoryCount rest
  end.

Definition limitSuggestions (suggestions : list Suggestion) (maxPerCategory : Z)
  : list Suggestion :=
  limitLoop maxPerCategory (fun _ => 0) suggestions.

(** The handler, from the lists the four suggesters return. *)
Definition handler (gemSuggestions passiveSuggestions gearSuggestions utilitySuggestions
                      : list Suggestion) (analysis : BuildAnalysis) : list Suggestion :=
  let allSuggestions :=
    (gemSuggestions ++ passiveSuggestions ++ gearSuggestions ++ utilitySuggestions)%list in
  let allSuggestions := map (fun s => scoreSuggestionPriority s analysis) allSuggestions in
  let allSuggestions := deduplicateSuggestions allSuggestions in
  let allSuggestions := sortSuggestions allSuggestions in
  limitSuggestions allSuggestions 5.

(** Position of a suggestion in the sorted order. *)
Definition rank (s : Suggestion) : Z :=
  4 * (3 - priorityWeight (priority s)) + categoryIndex (category s).

Definition isCritical (s : Suggestion) : bool := priority_eqb (priority s) critical.

Definition inCategory (c : SuggestionCategory) (s : Suggestion) : bool :=
  category_eqb (category s) c.

End Aggregator.

(* ================================================================== *)
(** ** The gear suggester: empty slots *)
(* ================================================================== *)

Module GearSuggester.
Import Suggest.

Definition SLOT_PRIORITY : list string :=
  [ "Ring1"; "Ring2"; "Amulet"; "Helmet"; "Boots"; "Gloves"; "Belt"; "BodyArmour";
    "Weapon1"; "Weapon2" ].

Definition emptySlotSuggestion (slot : string) : Suggestion :=
  mkSuggestion gear critical
    ("Empty gear slot: " ++ slot)
    ("Fill " ++ slot ++ " with an appropriate item for your build")
    "Missing gear slot significantly reduces stats and defenses".

(** [checkEmptySlots], on [build.gear]. *)
Definition checkEmptySlots (buildGear : list GearParser.GearSlot) : list Suggestion :=
  flat_map (fun slot =>
              let hasSlot :=
                existsb (fun g => strict_eq_str (GearParser.slot g) slot) buildGear in
              if negb hasSlot then [emptySlotSuggestion slot] else [])
           SLOT_PRIORITY.

End GearSuggester.

(* ================================================================== *)
(** ** The build cache: existence check, clearing, statistics *)
(* ================================================================== *)

Module CacheOps.

Section WithValue.

Variable V : Type.

(** [updateAgeOnHas]: the age of the entry restarts, its place in the
    recency order does not change. *)
Definition restartAge (k : string) (now : Z) (c : Cache.LRUCache V) : Cache.LRUCache V :=
  map (fun e => if (Cache.key e =? k)%string then Cache.mkEntry k (Cache.val e) now else e) c.

(** [has] of the LRU cache library: true for an entry that is there and
    not stale; a stale entry is left where it is. *)
Definition has (cfg : Cache.Config) (now : Z) (k : string) (c : Cache.LRUCache V)
  : bool * Cache.LRUCache V :=
  match Cache.lookup k c with
  | None => (false, c)
  | Some e =>
      if Cache.isStale cfg now e then (false, c)
      else (true, restartAge k now c)
  end.

(** The shape the cache is kept in: one entry per key, and no more than
    [max] entries when there is a limit. *)
Definition wellKept (cfg : Cache.Config) (c : Cache.LRUCache V) : Prop :=
  NoDup (map Cache.key c)
  /\ (Cache.CACHE_MAX_SIZE cfg <> 0%nat -> (List.length c <= Cache.CACHE_MAX_SIZE cfg)%nat).

End WithValue.

Arguments restartAge {V} k now c.
Arguments wellKept {V} cfg c.
Arguments has {V} cfg now k c.

Record CacheStats : Type := mkCacheStats {
  size : nat;
  maxSize : nat;
  hitRate : Z
}.

Section WithCollaborators.

Variables PassiveTree Stats : Type.
Variable E : ParseTool.Collaborators PassiveTree Stats.
Variable cfg : Cache.Config.

Definition hasCachedBuild (now : Z) (buildCode : string)
  (c : Cache.LRUCache (ParseTool.ParsedBuild PassiveTree Stats))
  : bool * Cache.LRUCache (ParseTool.ParsedBuild PassiveTree Stats) :=
  has cfg now (ParseTool.generateCacheKey E buildCode) c.

Definition clearCache : Cache.LRUCache (ParseTool.ParsedBuild PassiveTree Stats) := [].

Definition getCacheStats (c : Cache.LRUCache (ParseTool.ParsedBuild PassiveTree Stats))
  : CacheStats :=
  mkCacheStats (List.length c) (Cache.CACHE_MAX_SIZE cfg) 0.

End WithCollaborators.

Arguments hasCachedBuild {PassiveTree Stats} E cfg now buildCode c.
Arguments clearCache {PassiveTree Stats}.
Arguments getCacheStats {PassiveTree Stats} cfg c.

End CacheOps.

(* ================================================================== *)
(** ** The Base64 check *)
(* ================================================================== *)

Module Base64.

(** [isValidBase64]: the two tests of [decodeBase64], without decoding. *)
Definition isValidBase64 (input : string) : bool :=
  if (String.length (ParseTool.trim input) =? 0)%nat then false
  else ParseTool.all_chars ParseTool.is_base64_char (ParseTool.trim input).

End Base64.

(* ================================================================== *)
(** ** parsers/passive-parser.ts *)
(* ================================================================== *)

Module PassiveParser.

Record Keystone : Type := mkKeystone {
  id : value;
  name : value;
  effect : value
}.

Record Notable : Type := mkNotable {
  notableId : value;
  notableName : value;
  notableEffect : value
}.

Record PassiveTree : Type := mkPassiveTree {
  totalPoints : Z;
  nodes : list value;
  keystones : list Keystone;
  notables : list Notable;
  version : value
}.

Definition emptyTree : PassiveTree := mkPassiveTree 0 [] [] [] (VStr "unknown").

(** [loadKeystonesData]: [file] is what reading and parsing
    data/keystones.json gives, [None] when either fails; the file is taken
    to hold an array. *)
Definition loadKeystonesData (file : option (list value)) : list value :=
  match file with
  | Some parsed => parsed
  | None => []
  end.

(** The body of the innermost [forEach] of [extractNodeIds]: what one node
    entry adds.  [typeof null] is "object" too, and reading [$] off it
    throws. *)
Definition nodeEntry (nodeId : value) : result (list value) :=
  match nodeId with
  | VStr _ => Ok [nodeId]
  | VNull | VArr _ | VObj _ =>
      let* dollar := get nodeId "$" in
      if truthy dollar then Ok [dollar] else Ok []
  | _ => Ok []
  end.

Definition specEntry (spec : value) : result (list value) :=
  let* specNodes := get spec "nodes" in
  if truthy specNodes then
    let* node := get specNodes "node" in
    if truthy node then
      let* found := mapM nodeEntry (arrayOrSingleton node) in Ok (List.concat found)
    else Ok []
  else Ok [].

Definition extractNodeIds (treeSection : value) : result (list value) :=
  let* specs := get treeSection "Specs" in
  if truthy specs then
    let* spec := get specs "Spec" in
    if truthy spec then
      let* found := mapM specEntry (arrayOrSingleton spec) in Ok (List.concat found)
    else Ok []
  else Ok [].

(** [Array.prototype.join]. *)
Fixpoint join (sep : string) (l : list value) : string :=
  match l with
  | [] => ""
  | x :: r =>
      (match x with VUndef | VNull => "" | _ => toString x end)
      ++ (match r with [] => "" | _ :: _ => sep ++ join sep r end)
  end.

(** [k.effects?.join("; ") || ""]: only arrays have [join]. *)
Definition effectText (effects : value) : result value :=
  match effects with
  | VUndef | VNull => Ok (VStr "")
  | VArr l => Ok (VStr (join "; " l) ||| VStr "")
  | _ => Throw (TypeError "k.effects?.join is not a function")
  end.

(** One entry of the keystone map: the key and the keystone. *)
Definition keystoneEntry (k : value) : result (value * Keystone) :=
  let* kid := get k "id" in
  let* kname := get k "name" in
  let* effects := get k "effects" in
  let* effect := effectText effects in
  Ok (kid, mkKeystone kid kname effect).

(** Key equality of [Map] (SameValueZero).  Objects and arrays are equal
    only to themselves; a node id and a key of the keystone data never are
    the same object. *)
Definition sameValueZero (a b : value) : bool :=
  match a, b with
  | VUndef, VUndef | VNull, VNull => true
  | VBool x, VBool y => Bool.eqb x y
  | VNum (Int x), VNum (Int y) => x =? y
  | VNum NaN, VNum NaN => true
  | VStr x, VStr y => (x =? y)%string
  | _, _ => false
  end.

(** [map.get(key)]: a later entry with the same key replaces an earlier
    one. *)
Fixpoint mapGet (key : value) (entries : list (value * Keystone)) : option Keystone :=
  match entries with
  | [] => None
  | (k, v) :: rest =>
      match mapGet key rest with
      | Some later => Some later
      | None => if sameValueZero k key then Some v else None
      end
  end.

Fixpoint lookupAll (entries : list (value * Keystone)) (nodeIds : list value) : list Keystone :=
  match nodeIds with
  | [] => []
  | nodeId :: rest =>
      match mapGet nodeId entries with
      | Some keystone => keystone :: lookupAll entries rest
      | None => lookupAll entries rest
      end
  end.

Definition identifySpecialNodes (keystonesData : list value) (nodeIds : list value)
  : result (list Keystone * list Notable) :=
  let* keystonesMap := mapM keystoneEntry keystonesData in
  Ok (lookupAll keystonesMap nodeIds, []).

(** [parsePassives], with the module variable [keystonesData] passed in
    and out. *)
Definition parsePassives (file : option (list value)) (keystonesData : list value)
  (treeSection : value) : result PassiveTree * list value :=
  let keystonesData :=
    if (List.length keystonesData =? 0)%nat then loadKeystonesData file else keystonesData in
  (if negb (truthy treeSection) then Ok emptyTree
   else
     let* nodes := extractNodeIds treeSection in
     let* v := get treeSection "version" in
     let version := v ||| VStr "unknown" in
     let* special := identifySpecialNodes keystonesData nodes in
     Ok (mkPassiveTree (Z.of_nat (List.length nodes)) nodes (fst special) (snd special) version),
   keystonesData).

(** A node entry that is neither a string nor an object: a number, as the
    XML reader makes of numeric text, a boolean, or a hole. *)
Definition notStringNorObject (v : value) : bool :=
  match v with
  | VNum _ | VBool _ | VUndef => true
  | _ => false
  end.

End PassiveParser.

(* ================================================================== *)
(** ** Shapes of extractor inputs *)
(* ================================================================== *)

Module Shapes.

(** A gem entry typed "Support". *)
Definition isSupportTyped (gem : value) : bool :=
  strict_eq_str (get_opt gem "type") "Support".

(** The entries of [skill.gems.Gem] when that is an array. *)
Definition gemArray (skill : value) : option (list value) :=
  match get_opt (get_opt skill "gems") "Gem" with
  | VArr l => Some l
  | _ => None
  end.

(** An item that names its slot. *)
Definition namesSlot (item : value) : bool := truthy (get_opt item "slot").

End Shapes.

(* ================================================================== *)
(** ** The defensive path of analyze_build *)
(* ================================================================== *)

Module Analyze.

Inductive StatSource : Type := explicit | estimated | calculated.

(** A [Stat] of the build model; values are taken to be integers. *)
Record Stat : Type := mkStat {
  name : string;
  value : Z;
  source : StatSource
}.

(** [getDefaultStats] of the stats extractor. *)
Definition getDefaultStats : list Stat :=
  [ mkStat "Life" 0 estimated;
    mkStat "Energy Shield" 0 estimated;
    mkStat "Fire Resistance" 0 estimated;
    mkStat "Cold Resistance" 0 estimated;
    mkStat "Lightning Resistance" 0 estimated;
    mkStat "Chaos Resistance" 0 estimated ].

(** What the defensive path reads of a [ParsedBuild], typed as the
    interfaces say: the stats, for each gear entry the texts of its affixes
    ([None] when the entry has no [affixes]), the character level and the
    keystones of the passive tree. *)
Record Build : Type := mkBuild {
  stats : list Stat;
  gear : list (option (list string));
  level : Z;
  keystones : option (list Defense.Keystone)
}.

Fixpoint takeDigits (s : string) : string :=
  match s with
  | String c r => if is_digit c then String c (takeDigits r) else EmptyString
  | EmptyString => EmptyString
  end.

Fixpoint dropDigits (s : string) : string :=
  match s with
  | String c r => if is_digit c then dropDigits r else s
  | EmptyString => s
  end.

Definition drop2 (s : string) : string :=
  match s with
  | String _ (String _ r) => r
  | _ => EmptyString
  end.

(** The tail of the pattern, after the digits: white space, "to", white
    space, then [what]; on lower-cased text. *)
Definition afterDigits (what : string) (s : string) : bool :=
  let s1 := skip_spaces s in
  if String.prefix "to" s1 then String.prefix what (skip_spaces (drop2 s1)) else false.

(** [text.match(/(\\d+)\\s*to\\s*maximum .../i)] on lower-cased text: the
    group of the leftmost match.  The digits are followed by a non-digit in
    every match, so the group is a whole run of digits, and each start
    position is tried in turn. *)
Fixpoint matchGroup (what : string) (s : string) : option string :=
  match s with
  | EmptyString => None
  | String c r =>
      if is_digit c then
        if afterDigits what (dropDigits s) then Some (takeDigits s)
        else matchGroup what r
      else matchGroup what r
  end.

(** [acc += parseInt(group, 10)]; the group is a run of digits, which
    [parseInt] always reads as a number. *)
Definition addParsed (acc : Z) (group : string) : Z :=
  match parseInt_str group with
  | Int z => acc + z
  | NaN => acc
  end.

Definition withLife (s : Defense.DefensiveStats) (v : Z) : Defense.DefensiveStats :=
  Defense.mkStats v (Defense.energyShield s) (Defense.fireResist s) (Defense.coldResist s)
    (Defense.lightningResist s) (Defense.chaosResist s) (Defense.armor s) (Defense.evasion s).

Definition withEnergyShield (s : Defense.DefensiveStats) (v : Z) : Defense.DefensiveStats :=
  Defense.mkStats (Defense.life s) v (Defense.fireResist s) (Defense.coldResist s)
    (Defense.lightningResist s) (Defense.chaosResist s) (Defense.armor s) (Defense.evasion s).

(** The [switch] of [extractDefensiveStats] for one stat. *)
Definition applyStat (s : Defense.DefensiveStats) (stat : Stat) : Defense.DefensiveStats :=
  let n := toLowerCase (name stat) in
  let v := value stat in
  if ((n =? "life") || (n =? "maximum life"))%string then withLife s v
  else if ((n =? "energy shield") || (n =? "maximum energy shield"))%string
  then withEnergyShield s v
  else if ((n =? "fire resistance") || (n =? "fire resist"))%string
  then Defense.mkStats (Defense.life s) (Defense.energyShield s) v (Defense.coldResist s)
         (Defense.lightningResist s) (Defense.chaosResist s) (Defense.armor s) (Defense.evasion s)
  else if ((n =? "cold resistance") || (n =? "cold resist"))%string
  then Defense.mkStats (Defense.life s) (Defense.energyShield s) (Defense.fireResist s) v
         (Defense.lightningResist s) (Defense.chaosResist s) (Defense.armor s) (Defense.evasion s)
  else if ((n =? "lightning resistance") || (n =? "lightning resist"))%string
  then Defense.mkStats (Defense.life s) (Defense.energyShield s) (Defense.fireResist s)
         (Defense.coldResist s) v (Defense.chaosResist s) (Defense.armor s) (Defense.evasion s)
  else if ((n =? "chaos resistance") || (n =? "chaos resist"))%string
  then Defense.mkStats (Defense.life s) (Defense.energyShield s) (Defense.fireResist s)
         (Defense.coldResist s) (Defense.lightningResist s) v (Defense.armor s) (Defense.evasion s)
  else if ((n =? "armor") || (n =? "base armour"))%string
  then Defense.mkStats (Defense.life s) (Defense.energyShield s) (Defense.fireResist s)
         (Defense.coldResist s) (Defense.lightningResist s) (Defense.chaosResist s) v
         (Defense.evasion s)
  else if ((n =? "evasion") || (n =? "evasion rating"))%string
  then Defense.mkStats (Defense.life s) (Defense.energyShield s) (Defense.fireResist s)
         (Defense.coldResist s) (Defense.lightningResist s) (Defense.chaosResist s)
         (Defense.armor s) v
  else s.

(** The body of the inner loop over affixes: [st] is (life, energyShield). *)
Definition affixStep (st : Z * Z) (affixText : string) : Z * Z :=
  let text := toLowerCase affixText in
  let life :=
    if (includes text "life" && (fst st =? 0))%bool then
      match matchGroup "maximum life" text with
      | Some group => addParsed (fst st) group
      | None => fst st
      end
    else fst st in
  let energyShield :=
    if (includes text "energy shield" && (snd st =? 0))%bool then
      match matchGroup "maximum energy shield" text with
      | Some group => addParsed (snd st) group
      | None => snd st
      end
    else snd st in
  (life, energyShield).

Definition gearStep (st : Z * Z) (g : option (list string)) : Z * Z :=
  match g with
  | Some affixes => fold_left affixStep affixes st
  | None => st
  end.

Definition extractDefensiveStats (build : Build) : Defense.DefensiveStats :=
  let s := fold_left applyStat (stats build) (Defense.mkStats 0 0 0 0 0 0 0 0) in
  let estimate :=
    if ((Defense.life s =? 0) || (Defense.energyShield s =? 0))%bool
    then fold_left gearStep (gear build) (Defense.life s, Defense.energyShield s)
    else (Defense.life s, Defense.energyShield s) in
  withEnergyShield (withLife s (fst estimate)) (snd estimate).

(** [analyzeDefense(build).rating]. *)
Definition analyzeDefenseRating (build : Build) : Defense.DefensiveRating :=
  Defense.analyzeDefenseRating (extractDefensiveStats build) (keystones build).

(** The sum of all matches of one pattern over the gear, as
    [estimateMissingStats] computes [totalLife] and [totalES]; the pattern
    ignores case there, which is matching on the lower-cased text. *)
Definition totalOf (what : string) (buildGear : list (option (list string))) : Z :=
  fold_left
    (fun total g =>
       match g with
       | Some affixes =>
           fold_left
             (fun total affixText =>
                match matchGroup what (toLowerCase affixText) with
                | Some group => addParsed total group
                | None => total
                end)
             affixes total
       | None => total
       end)
    buildGear 0.

Definition hasName (statNames : list string) (n : string) : bool :=
  existsb (String.eqb n) statNames.

Definition estimateMissingStats (build : Build) : Build :=
  let statNames := map (fun s => toLowerCase (name s)) (stats build) in
  let stats1 :=
    if (negb (hasName statNames "life") && negb (hasName statNames "maximum life"))%bool then
      let totalLife := totalOf "maximum life" (gear build) in
      let baseLife := 38 + level build * 12 in
      if totalLife >? 0
      then (stats build ++ [mkStat "Life" (baseLife + totalLife) estimated])%list
      else stats build
    else stats build in
  let stats2 :=
    if (negb (hasName statNames "energy shield")
        && negb (hasName statNames "maximum energy shield"))%bool then
      let totalES := totalOf "maximum energy shield" (gear build) in
      if totalES >? 0
      then (stats1 ++ [mkStat "Energy Shield" totalES estimated])%list
      else stats1
    else stats1 in
  mkBuild stats2 (gear build) (level build) (keystones build).

(** The [defensiveRating] of the analysis the handler returns. *)
Definition handlerDefensiveRating (build : Build) : Defense.DefensiveRating :=
  analyzeDefenseRating (estimateMissingStats build).

(** All affix texts of the gear, in order. *)
Definition gearTexts (buildGear : list (option (list string))) : list string :=
  flat_map (fun g => match g with Some affixes => affixes | None => [] end) buildGear.

(** What one affix would give as life, and as energy shield, when none
    has been found yet. *)
Definition lifeOf (affixText : string) : Z := fst (affixStep (0, 0) affixText).
Definition energyShieldOf (affixText : string) : Z := snd (affixStep (0, 0) affixText).

(** The stats after the loop over [build.stats], before any estimate. *)
Definition explicitStats (build : Build) : Defense.DefensiveStats :=
  fold_left applyStat (stats build) (Defense.mkStats 0 0 0 0 0 0 0 0).

(** The first number of a list that is not 0, and 0 when there is none. *)
Fixpoint firstNonzero (l : list Z) : Z :=
  match l with
  | [] => 0
  | x :: r => if x =? 0 then firstNonzero r else x
  end.

End Analyze.

(* ================================================================== *)
(** * Properties *)
(* ================================================================== *)

(** ** Strings *)

Lemma prefix_app (b c : string) : String.prefix b (b ++ c) = true.
Proof.
  induction b as [|x b IH]; simpl.
  - destruct c; reflexivity.
  - destruct (ascii_dec x x) as [_|n]; [exact IH | now destruct n].
Qed.

Lemma includes_here (s sub : string) : String.prefix sub s = true -> includes s sub = true.
Proof. intros H. destruct s; cbn [includes]; rewrite H; reflexivity. Qed.

Lemma includes_app (a b c : string) : includes (a ++ b ++ c) b = true.
Proof.
  induction a as [|x a IH].
  - change ("" ++ b ++ c) with (b ++ c). apply includes_here, prefix_app.
  - change (String x a ++ b ++ c) with (String x (a ++ b ++ c)).
    cbn [includes]. rewrite IH. apply orb_true_r.
Qed.

Lemma string_app_assoc (a b c : string) : ((a ++ b) ++ c = a ++ (b ++ c))%string.
Proof. induction a as [|x a IH]; simpl; [reflexivity | now rewrite IH]. Qed.

(** ** Rescoring *)

Section Rescoring.
Import Suggest.

Lemma scored_critical_iff (s : Suggestion) (a : BuildAnalysis) :
  priority (scoreSuggestionPriority s a) = critical
  <-> priority s = critical \/ addressesCriticalWeakness a = true.
Proof.
  unfold scoreSuggestionPriority.
  destruct (addressesCriticalWeakness a), s as [c p d sa ei];
    destruct p, c, (defensiveRating a), (offensiveRating a); simpl;
    split; intros H; auto; try discriminate;
    destruct H as [H|H]; discriminate.
Qed.

Lemma addressesCriticalWeakness_iff (a : BuildAnalysis) :
  addressesCriticalWeakness a = true
  <-> exists w i, In w (weaknesses a) /\ In i criticalWeaknesses
                  /\ includes (toLowerCase w) i = true.
Proof.
  unfold addressesCriticalWeakness. rewrite existsb_exists. split.
  - intros (i & Hi & Hw). apply existsb_exists in Hw as (w & Hw & Hinc).
    exists w, i. auto.
  - intros (w & i & Hw & Hi & Hinc). exists i. split; [exact Hi|].
    apply existsb_exists. exists w. auto.
Qed.

(** What the rescoring pass computes: a suggestion comes out [critical]
    exactly when it already was, or when some weakness string of the
    analysis contains (ignoring case) one of the six phrases.  The
    description of the suggestion plays no part: replacing it leaves the
    rescored priority unchanged. *)
Lemma rescore_critical_by_analysis (s : Suggestion) (a : BuildAnalysis) :
  (priority (scoreSuggestionPriority s a) = critical
   <-> priority s = critical
       \/ exists w i, In w (weaknesses a) /\ In i criticalWeaknesses
                      /\ includes (toLowerCase w) i = true)
  /\ (forall d : string,
        priority (scoreSuggestionPriority
                    (mkSuggestion (category s) (priority s) d
                                  (specificAction s) (expectedImpact s)) a)
        = priority (scoreSuggestionPriority s a)).
Proof.
  split.
  - rewrite scored_critical_iff, addressesCriticalWeakness_iff. reflexivity.
  - intros d. unfold scoreSuggestionPriority.
    destruct (addressesCriticalWeakness a), s as [c p d0 sa ei];
      destruct p, c, (defensiveRating a), (offensiveRating a); reflexivity.
Qed.

(** C1 fails on the code, both ways.  The pass is commented "check if
    suggestion addresses a critical weakness", yet it never looks at the
    suggestion: an [optional] gem suggestion whose description holds none
    of the phrases becomes [critical] once the analysis lists an uncapped
    resistance, and a suggestion whose description says "uncapped" stays
    [optional] when the analysis lists no such weakness. *)
Theorem rescore_ignores_description :
  let s1 := mkSuggestion gems optional "Add a damage support gem" "Link Spell Echo" "More damage" in
  let a1 := mkBuildAnalysis [] ["Uncapped fire resistance (10% - need 65% more)"]
              unknown Defense.glass_cannon low "" in
  let s2 := mkSuggestion gear optional "Fix uncapped resistances" "Craft resistance" "Capped resistances" in
  let a2 := mkBuildAnalysis [] ["Main skill lacks damage support gems"]
              unknown Defense.glass_cannon low "" in
  (descriptionIsCritical s1 = false
   /\ priority (scoreSuggestionPriority s1 a1) = critical)
  /\ (descriptionIsCritical s2 = true
      /\ priority (scoreSuggestionPriority s2 a2) = optional).
Proof. vm_compute. repeat split. Qed.

End Rescoring.

(** ** Defensive classification *)

Section DefensiveClassification.
Import Defense.

Lemma uberTest_iff (st : DefensiveStats) (ci : bool) :
  ((effectiveLife st ci >? 5000) && isResistCapped st
   && ((armor st >? 10000) || (evasion st >? 10000)))%bool = true
  <-> uberTest st ci.
Proof.
  unfold uberTest, isResistCapped.
  rewrite !andb_true_iff, orb_true_iff, !Z.gtb_lt, !Z.geb_le. lia.
Qed.

Lemma tankyTest_iff (st : DefensiveStats) (ci : bool) :
  ((effectiveLife st ci >? 4000) && isResistCapped st)%bool = true <-> tankyTest st ci.
Proof.
  unfold tankyTest, isResistCapped.
  rewrite !andb_true_iff, !Z.gtb_lt, !Z.geb_le. lia.
Qed.

Lemma moderateTest_iff (st : DefensiveStats) (ci : bool) :
  ((effectiveLife st ci >? 2500) && (getMinElementalResist st >=? 50))%bool = true
  <-> moderateTest st ci.
Proof.
  unfold moderateTest, getMinElementalResist.
  rewrite !andb_true_iff, !Z.gtb_lt, !Z.geb_le. lia.
Qed.

Lemma test_false (b : bool) (P : Prop) : (b = true <-> P) -> b = false -> ~ P.
Proof. intros [_ H] Hb HP. rewrite (H HP) in Hb. discriminate. Qed.

Ltac cascade_cases :=
  repeat match goal with
         | |- _ /\ _ => split
         | |- _ <-> _ => split
         end;
  intros; try discriminate; try reflexivity; tauto.

Lemma classifyDefense_first_match (st : DefensiveStats) (ci : bool) :
  (classifyDefense st ci = uber_viable <-> uberTest st ci)
  /\ (classifyDefense st ci = tanky <-> ~ uberTest st ci /\ tankyTest st ci)
  /\ (classifyDefense st ci = moderate
      <-> ~ uberTest st ci /\ ~ tankyTest st ci /\ moderateTest st ci)
  /\ (classifyDefense st ci = glass_cannon
      <-> ~ uberTest st ci /\ ~ tankyTest st ci /\ ~ moderateTest st ci).
Proof.
  unfold classifyDefense; cbv zeta.
  destruct (_ && _ && _)%bool eqn:EU.
  - apply uberTest_iff in EU.
    cascade_cases.
  - apply (test_false _ _ (uberTest_iff st ci)) in EU.
    destruct (_ && _)%bool eqn:ET.
    + apply tankyTest_iff in ET.
      cascade_cases.
    + apply (test_false _ _ (tankyTest_iff st ci)) in ET.
      destruct (_ && _)%bool eqn:EM.
      * apply moderateTest_iff in EM.
        cascade_cases.
      * apply (test_false _ _ (moderateTest_iff st ci)) in EM.
        cascade_cases.
Qed.


(** With a keystone named Chaos Inoculation (or with id 16226) life is
    ignored: 9000 life and 100 energy shield is a glass cannon. *)
Example chaos_inoculation_uses_energy_shield :
  analyzeDefenseRating (mkStats 9000 100 75 75 75 0 20000 0)
    (Some [mkKeystone "16226" (Some "Chaos Inoculation") ""]) = glass_cannon
  /\ analyzeDefenseRating (mkStats 9000 100 75 75 75 0 20000 0) (Some []) = uber_viable.
Proof. split; reflexivity. Qed.

End DefensiveClassification.

(** ** The decompressor *)

Section Decompressor.
Import Decompress.

Variables (inflateSync inflateRawSync : Buffer -> string + Buffer) (utf8 : Buffer -> string).

Lemma decompressZlib_error (compressed : Buffer) (msg : string) :
  compressed <> [] ->
  inflateSync compressed = inl msg ->
  decompressZlib inflateSync utf8 compressed
  = Throw (PoBParsingError DECOMPRESSION_ERROR "Failed to decompress zlib data" (Some msg)).
Proof.
  intros Hne Hz. unfold decompressZlib.
  destruct compressed as [|b bs]; [contradiction|].
  cbn [List.length Nat.eqb]. rewrite Hz. reflexivity.
Qed.

(** When the fallback fails as well, the outcome does not depend on how it
    failed: an exception from the raw inflate and an empty raw output build
    the same error, whose details are made of the message of the first
    error alone. *)
Lemma decompressWithFallback_failure (compressed : Buffer) (e : exn) :
  decompressZlib inflateSync utf8 compressed = Throw e ->
  (exists msg, inflateRawSync compressed = inl msg) \/ inflateRawSync compressed = inr [] ->
  decompressWithFallback inflateSync inflateRawSync utf8 compressed
  = Throw (PoBParsingError DECOMPRESSION_ERROR
             "Failed to decompress with both zlib and raw deflate"
             (Some ("zlib: " ++ Errors.exn_message e))).
Proof.
  intros Hz Hr. unfold decompressWithFallback. rewrite Hz.
  destruct Hr as [[msg Hr]|Hr]; rewrite Hr; reflexivity.
Qed.

(** C6, as the code has it: when both inflate calls throw on a non-empty
    buffer, the decoder fails with DECOMPRESSION_ERROR and the message
    "Failed to decompress with both zlib and raw deflate"; the details are
    the fixed text "zlib: Failed to decompress zlib data", which holds the
    message of the wrapper error of the first attempt and neither of the two
    underlying messages. *)
Theorem decompressWithFallback_both_fail (compressed : Buffer) (zmsg rmsg : string) :
  compressed <> [] ->
  inflateSync compressed = inl zmsg ->
  inflateRawSync compressed = inl rmsg ->
  decompressWithFallback inflateSync inflateRawSync utf8 compressed
  = Throw (PoBParsingError DECOMPRESSION_ERROR
             "Failed to decompress with both zlib and raw deflate"
             (Some "zlib: Failed to decompress zlib data")).
Proof.
  intros Hne Hz Hr.
  rewrite (decompressWithFallback_failure compressed _ (decompressZlib_error _ _ Hne Hz)).
  - reflexivity.
  - left. exists rmsg. exact Hr.
Qed.

End Decompressor.

(** A run of the theorem: one byte, both inflate calls throwing. *)
Lemma decompressWithFallback_both_fail_run :
  Decompress.decompressWithFallback
    (fun _ => inl "incorrect header check") (fun _ => inl "invalid stored block lengths")
    (fun _ => "") [Byte.x01]
  = Throw (PoBParsingError DECOMPRESSION_ERROR
             "Failed to decompress with both zlib and raw deflate"
             (Some "zlib: Failed to decompress zlib data")).
Proof.
  apply (decompressWithFallback_both_fail
           (fun _ => inl "incorrect header check") (fun _ => inl "invalid stored block lengths")
           (fun _ => "") [Byte.x01] "incorrect header check" "invalid stored block lengths").
  - discriminate.
  - reflexivity.
  - reflexivity.
Defined.

(** C6 as stated fails: with zlib reporting "incorrect header check" and
    the raw inflate reporting "invalid stored block lengths" on the one-byte
    buffer 01, the details of the error contain neither message. *)
Example decompress_details_lack_messages :
  exists d,
    Decompress.decompressWithFallback
      (fun _ => inl "incorrect header check") (fun _ => inl "invalid stored block lengths")
      (fun _ => "") [Byte.x01]
    = Throw (PoBParsingError DECOMPRESSION_ERROR
               "Failed to decompress with both zlib and raw deflate" (Some d))
    /\ includes d "incorrect header check" = false
    /\ includes d "invalid stored block lengths" = false.
Proof. eexists. split; [reflexivity|]. split; vm_compute; reflexivity. Qed.

(** ** The version gate *)

Section VersionGate.
Import Xml.

Lemma validatePoBVersion_absent (fields : list (string * value)) :
  assoc "version" fields = VUndef ->
  validatePoBVersion (VObj fields)
  = Throw (PoBParsingError UNSUPPORTED_VERSION "PoB version not specified" None).
Proof. intros H. unfold validatePoBVersion. cbn [get bind]. rewrite H. reflexivity. Qed.

Lemma validatePoBVersion_below (fields : list (string * value)) (v : string) :
  assoc "version" fields = VStr v ->
  v <> "" ->
  String.ltb v minVersion = true ->
  validatePoBVersion (VObj fields)
  = Throw (PoBParsingError UNSUPPORTED_VERSION
             ("PoB version " ++ v ++ " is not supported (minimum: " ++ minVersion ++ ")") None).
Proof.
  intros H Hne Hlt. unfold validatePoBVersion. cbn [get bind]. rewrite H.
  cbn [truthy lt_string toString].
  destruct (String.eqb_spec v "") as [->|_]; [contradiction|].
  cbn [negb]. rewrite Hlt. reflexivity.
Qed.

Lemma message_names_minimum (v : string) :
  includes ("PoB version " ++ v ++ " is not supported (minimum: " ++ minVersion ++ ")")
           minVersion = true.
Proof.
  replace ("PoB version " ++ v ++ " is not supported (minimum: " ++ minVersion ++ ")")
    with (("PoB version " ++ v ++ " is not supported (minimum: ") ++ minVersion ++ ")").
  - apply includes_app.
  - rewrite !string_app_assoc. reflexivity.
Qed.




End VersionGate.

(** ** The character extractor *)

Section CharacterExtractor.
Import CharacterParser.

Lemma get_truthy (v : value) (k : string) :
  truthy v = true -> exists x, get v k = Ok x.
Proof. destruct v; simpl; intros H; try discriminate; eexists; reflexivity. Qed.

(** The extractor never throws, and the level it returns is the clamp of
    the parsed level: within 1..100 whenever [parseInt] found a number,
    NaN otherwise. *)
Lemma parseCharacter_level (buildSection : value) :
  exists c, parseCharacter buildSection = Ok c
            /\ (levelInRange (level c) \/ level c = NaN).
Proof.
  unfold parseCharacter.
  destruct (truthy buildSection) eqn:T; cbn [negb].
  - destruct (get_truthy buildSection "MainSocket" T) as [ms ->].
    destruct (get_truthy buildSection "class" T) as [bc ->].
    destruct (get_truthy buildSection "ascendancy" T) as [ba ->].
    destruct (get_truthy buildSection "level" T) as [bl ->].
    destruct (get_truthy buildSection "league" T) as [bg ->].
    cbn [bind]. eexists. split; [reflexivity|]. cbn [level].
    destruct (parseInt _) as [z|]; cbn [math_min math_max levelInRange]; [left; lia | right; reflexivity].
  - eexists. split; [reflexivity|]. left. simpl. lia.
Qed.

(** C9 fails on the code: for a build section whose level attribute is
    the non-numeric string "abc", [parseInt] yields NaN, both [Math.max] and
    [Math.min] pass NaN on, and the returned level is NaN, not an integer
    of 1..100. *)
Theorem parseCharacter_level_not_clamped :
  parseCharacter (VObj [("level", VStr "abc")])
  = Ok (mkCharacter (VStr "Witch") VNull NaN VNull).
Proof. reflexivity. Qed.

End CharacterExtractor.

(** ** The skills extractor *)

Section SkillsExtractor.
Import SkillParser.

Ltac split_ifs :=
  repeat match goal with
         | |- context [if ?c then _ else _] => destruct c
         | |- context [match ?v with VUndef => _ | _ => _ end] => destruct v
         end;
  lia.

Lemma filterM_length {A} (p : A -> result bool) (xs ys : list A) :
  filterM p xs = Ok ys -> (List.length ys <= List.length xs)%nat.
Proof.
  revert ys. induction xs as [|x xs IH]; intros ys; cbn [filterM].
  - intros [= <-]. simpl. lia.
  - destruct (p x) as [b|e]; cbn [bind]; [|discriminate].
    destruct (filterM p xs) as [zs|e]; cbn [bind]; [|discriminate].
    intros [= <-]. specialize (IH zs eq_refl). destruct b; simpl; lia.
Qed.

Lemma mapM_length {A B} (f : A -> result B) (xs : list A) (ys : list B) :
  mapM f xs = Ok ys -> List.length ys = List.length xs.
Proof.
  revert ys. induction xs as [|x xs IH]; intros ys; cbn [mapM].
  - intros [= <-]. reflexivity.
  - destruct (f x) as [y|e]; cbn [bind]; [|discriminate].
    destruct (mapM f xs) as [zs|e]; cbn [bind]; [|discriminate].
    intros [= <-]. simpl. now rewrite (IH zs eq_refl).
Qed.

(** What the code does guarantee: the link count is never below the number
    of supports plus one. *)
Lemma parseSkill_linkCount_lower_bound (skill : value) (index : Z) (s : SkillSetup) :
  parseSkill skill index = Ok s ->
  Z.of_nat (List.length (supports s)) + 1 <= linkCount s.
Proof.
  unfold parseSkill.
  destruct (get skill "gem") as [g|e]; cbn [bind]; [|discriminate].
  destruct (get skill "name") as [n|e]; cbn [bind]; [|discriminate].
  destruct (get skill "level") as [l|e]; cbn [bind]; [|discriminate].
  destruct (get skill "quality") as [q|e]; cbn [bind]; [|discriminate].
  unfold parseSupportGems, calculateLinkCount.
  destruct (get skill "gems") as [gems|e]; cbn [bind]; [|discriminate].
  destruct (truthy gems) eqn:T; cbn [negb].
  - destruct (get_truthy gems "Gem" T) as [gm Hg]. rewrite Hg. cbn [bind].
    assert (Hopt : get_opt gems "Gem" = gm).
    { unfold get_opt. rewrite Hg. destruct gems; try reflexivity; discriminate. }
    rewrite Hopt.
    destruct gm as [| |b|n0|s0|arr|fs]; cbn [bind];
      try (destruct (get skill "mainActive"); cbn [bind]; [|discriminate];
           intros [= <-]; cbn [supports linkCount List.length];
           split_ifs).
    destruct (filterM isSupport arr) as [kept|e] eqn:F; cbn [bind]; [|discriminate].
    destruct (mapM toSupportGem kept) as [sup|e] eqn:M; cbn [bind]; [|discriminate].
    destruct (get skill "mainActive"); cbn [bind]; [|discriminate].
    intros [= <-]. cbn [supports linkCount truthy].
    apply mapM_length in M. apply filterM_length in F. lia.
  - cbn [bind]. destruct (get skill "mainActive"); cbn [bind]; [|discriminate].
    intros [= <-]. cbn [supports linkCount List.length].
    split_ifs.
Qed.

(** C3 fails on the code: [calculateLinkCount] counts every entry of
    [gems.Gem], whatever its type, while [parseSupportGems] keeps the
    entries typed "Support".  A skill with one active gem and no support
    gets no supports and link count 2. *)
Theorem linkCount_counts_all_gems :
  exists s,
    parseSkills
      (VObj [("Skill",
              VArr [VObj [("name", VStr "Fireball");
                          ("gems", VObj [("Gem", VArr [VObj [("type", VStr "Active");
                                                             ("name", VStr "Fireball")]])])]])])
    = Ok [s]
    /\ supports s = []
    /\ linkCount s = 2.
Proof. eexists. split; [reflexivity|]. split; reflexivity. Qed.

(** The same mismatch for a single support gem that the reader hands over
    as an object instead of a one-element array: no supports, link count 2. *)
Example linkCount_single_gem_object :
  exists s,
    parseSkills
      (VObj [("Skill",
              VArr [VObj [("name", VStr "Fireball");
                          ("gems", VObj [("Gem", VObj [("type", VStr "Support");
                                                       ("name", VStr "Spell Echo")])])]])])
    = Ok [s]
    /\ supports s = []
    /\ linkCount s = 2.
Proof. eexists. split; [reflexivity|]. split; reflexivity. Qed.

Lemma forEachIndexed_ids (skills : list value) (index : Z) (setups : list SkillSetup) :
  forEachIndexed skills index = Ok setups ->
  List.length setups = List.length skills
  /\ forall (i : nat) (s : SkillSetup),
       nth_error setups i = Some s -> id s = "skill-" ++ decimal (index + Z.of_nat i + 1).
Proof.
  revert index setups. induction skills as [|sk skills IH]; intros index setups; cbn [forEachIndexed].
  - intros [= <-]. split; [reflexivity|]. intros [|i] s; discriminate.
  - destruct (parseSkill sk index) as [s0|e] eqn:P; cbn [bind]; [|discriminate].
    destruct (forEachIndexed skills (index + 1)) as [rest|e] eqn:R; cbn [bind]; [|discriminate].
    intros [= <-]. destruct (IH _ _ R) as [Hlen Hid]. split.
    + simpl. now rewrite Hlen.
    + intros [|i] s; cbn [nth_error].
      * intros [= <-]. unfold parseSkill in P.
        repeat (match type of P with
                | bind ?m _ = _ => destruct m; cbn [bind] in P; [|discriminate]
                end).
        injection P as <-. cbn [id].
        replace (index + Z.of_nat 0 + 1) with (index + 1) by lia. reflexivity.
      * intros Hs. rewrite (Hid i s Hs).
        replace (index + 1 + Z.of_nat i + 1) with (index + Z.of_nat (S i) + 1) by lia.
        reflexivity.
Qed.

(** When [Skill] is an array, each entry that is read without an exception
    gives one setup, in order, with ids skill-1, skill-2, ... *)
Lemma parseSkills_array (fields : list (string * value)) (skillArray : list value)
  (setups : list SkillSetup) :
  assoc "Skill" fields = VArr skillArray ->
  parseSkills (VObj fields) = Ok setups ->
  List.length setups = List.length skillArray
  /\ forall (i : nat) (s : SkillSetup),
       nth_error setups i = Some s -> id s = "skill-" ++ decimal (Z.of_nat i + 1).
Proof.
  intros H. unfold parseSkills. cbn [truthy negb get bind]. rewrite H.
  intros P. apply forEachIndexed_ids in P. exact P.
Qed.

(** C8 fails on the code for N = 1: a section with one skill entry, which
    the XML reader hands over as an object and not as an array, is turned
    into the empty list by the guard at the top of [parseSkills]. *)
Theorem parseSkills_single_entry_dropped :
  parseSkills (VObj [("Skill", VObj [("name", VStr "Fireball"); ("level", VStr "20")])])
  = Ok [].
Proof. reflexivity. Qed.

End SkillsExtractor.

(** ** The gear extractor *)

Section GearExtractor.
Import GearParser.

Lemma get_nonnull (v : value) (k : string) :
  v <> VUndef -> v <> VNull -> get v k = Ok (get_opt v k).
Proof. destruct v; intros H1 H2; try contradiction; reflexivity. Qed.

Lemma truthy_nonnull (v : value) : truthy v = true -> v <> VUndef /\ v <> VNull.
Proof. destruct v; intros H; try discriminate; split; discriminate. Qed.

Lemma get_of_truthy (v : value) (k : string) :
  truthy v = true -> get v k = Ok (get_opt v k).
Proof. intros H. destruct (truthy_nonnull v H). now apply get_nonnull. Qed.

Lemma strict_eq_str_true (v : value) (s : string) :
  strict_eq_str v s = true -> v = VStr s.
Proof.
  destruct v; simpl; intros H; try discriminate.
  apply String.eqb_eq in H. now subst.
Qed.

Lemma fillSlot_slot (gear : list GearSlot) (name : string) :
  slot (fillSlot gear name) = VStr name.
Proof.
  unfold fillSlot.
  destruct (find _ gear) as [g|] eqn:F; [|reflexivity].
  apply find_some in F as [_ F]. now apply strict_eq_str_true.
Qed.

Lemma fillSlot_origin (gear : list GearSlot) (name : string) :
  fillSlot gear name = createEmptySlot name \/ In (fillSlot gear name) gear.
Proof.
  unfold fillSlot.
  destruct (find _ gear) as [g|] eqn:F; [right | left; reflexivity].
  now apply find_some in F as [F _].
Qed.

Lemma VStr_injective_map (l : list string) : NoDup l -> NoDup (map VStr l).
Proof.
  induction 1 as [|x l Hx _ IH]; cbn [map]; constructor; [|exact IH].
  intros Hin. apply in_map_iff in Hin as (y & [= ->] & Hy). exact (Hx Hy).
Qed.

Lemma GEAR_SLOTS_NoDup : NoDup GEAR_SLOTS.
Proof.
  unfold GEAR_SLOTS.
  repeat (constructor; [cbn [In]; intros H;
                        repeat (destruct H as [H|H]; [discriminate H|]); exact H |]).
  constructor.
Qed.

Lemma collectSlots_In (items : list value) (gear : list GearSlot) (g : GearSlot) :
  collectSlots items = Ok gear -> In g gear ->
  exists item, In item items /\ parseGearSlot item = Ok (Some g).
Proof.
  revert gear. induction items as [|it items IH]; intros gear; cbn [collectSlots].
  - intros [= <-] [].
  - destruct (parseGearSlot it) as [o|e] eqn:P; cbn [bind]; [|discriminate].
    destruct (collectSlots items) as [rest|e]; cbn [bind]; [|discriminate].
    intros [= <-] Hin.
    destruct o as [g0|].
    + destruct Hin as [<-|Hin].
      * exists it. split; [left; reflexivity | exact P].
      * destruct (IH rest eq_refl Hin) as (item & Hi & Hp).
        exists item. split; [right; exact Hi | exact Hp].
    + destruct (IH rest eq_refl Hin) as (item & Hi & Hp).
      exists item. split; [right; exact Hi | exact Hp].
Qed.

Lemma filled_shape (gearSection : value) (gear : list GearSlot) :
  (forall g, In g gear ->
     exists item, In item (sectionItems gearSection) /\ parseGearSlot item = Ok (Some g)) ->
  fifteenSlots gearSection (map (fillSlot gear) GEAR_SLOTS).
Proof.
  intros Hgear.
  assert (Hslots : map slot (map (fillSlot gear) GEAR_SLOTS) = map VStr GEAR_SLOTS).
  { rewrite map_map. apply map_ext. intros n. apply fillSlot_slot. }
  unfold fifteenSlots. split; [reflexivity|]. split; [exact Hslots|]. split.
  - rewrite Hslots. apply VStr_injective_map, GEAR_SLOTS_NoDup.
  - apply Forall_forall. intros g Hg. apply in_map_iff in Hg as (n & <- & Hn).
    destruct (fillSlot_origin gear n) as [-> | Hin].
    + left. exists n. split; [exact Hn | reflexivity].
    + right. apply Hgear, Hin.
Qed.

(** Whatever the section is, a list that [parseGear] returns has the
    fifteen slots in the fixed order, each an [Empty] placeholder or an
    item parsed from the section. *)
Lemma parseGear_returns_fifteen (gearSection : value) (slots : list GearSlot) :
  parseGear gearSection = Ok slots -> fifteenSlots gearSection slots.
Proof.
  unfold parseGear.
  destruct (truthy gearSection) eqn:T; cbn [negb].
  - rewrite (get_of_truthy _ "Item" T). cbn [bind].
    destruct (truthy (get_opt gearSection "Item")) eqn:TI; cbn [negb].
    + destruct (collectSlots _) as [gear|e] eqn:C; cbn [bind]; [|discriminate].
      intros [= <-]. apply filled_shape. intros g Hg.
      unfold sectionItems. rewrite T, TI.
      exact (collectSlots_In _ _ g C Hg).
    + intros [= <-]. apply (filled_shape gearSection []). intros g [].
  - intros [= <-]. apply (filled_shape gearSection []). intros g [].
Qed.

Lemma mapM_total {A B} (f : A -> result B) (xs : list A) :
  (forall x, In x xs -> exists y, f x = Ok y) -> exists ys, mapM f xs = Ok ys.
Proof.
  induction xs as [|x xs IH]; intros H; cbn [mapM].
  - eexists; reflexivity.
  - destruct (H x (or_introl eq_refl)) as [y ->].
    destruct IH as [ys ->]; [intros z Hz; apply H; right; exact Hz|].
    eexists; reflexivity.
Qed.

Lemma parseAffix_total (mod_ : value) :
  modWellTyped mod_ = true -> exists a, parseAffix mod_ = Ok a.
Proof.
  intros H.
  assert (Hn : mod_ <> VUndef /\ mod_ <> VNull) by (destruct mod_; split; discriminate).
  destruct Hn as [H1 H2].
  unfold parseAffix, determineAffixType.
  rewrite !(get_nonnull mod_ _ H1 H2). cbn [bind].
  assert (Hty : exists t, (if strict_eq_str (get_opt mod_ "type") "implicit"
                           then Ok implicit_affix
                           else if (strict_eq_true (get_opt mod_ "corrupted")
                                    || strict_eq_str (get_opt mod_ "corrupted") "true")%bool
                                then Ok corrupted_implicit else Ok explicit) = Ok t).
  { destruct (strict_eq_str _ "implicit"); [eexists; reflexivity|].
    destruct (_ || _)%bool; eexists; reflexivity. }
  destruct Hty as [t ->]. cbn [bind].
  assert (Htext : isString (get_opt mod_ "str" ||| get_opt mod_ "$" ||| VStr "") = true).
  { destruct mod_; try discriminate; exact H. }
  destruct (_ ||| _ ||| _) as [| | | |s| |]; try discriminate.
  cbn [parseAffixValue]. destruct (first_run s); cbn [bind]; eexists; reflexivity.
Qed.

Lemma parseAffixes_total (item : value) :
  truthy item = true ->
  forallb modWellTyped (itemMods item) = true ->
  exists l, parseAffixes item = Ok l.
Proof.
  intros T H. unfold parseAffixes, itemMods in *.
  rewrite (get_of_truthy _ "mods" T). cbn [bind].
  destruct (truthy (get_opt item "mods")) eqn:TM; cbn [negb]; [|eexists; reflexivity].
  rewrite (get_of_truthy _ "mod" TM). cbn [bind].
  destruct (truthy (get_opt (get_opt item "mods") "mod")) eqn:Tm; cbn [negb];
    [|eexists; reflexivity].
  apply mapM_total. intros x Hx. apply parseAffix_total.
  rewrite forallb_forall in H. apply H, Hx.
Qed.

Lemma parseInfluences_total (item : value) :
  truthy item = true -> exists l, parseInfluences item = Ok l.
Proof.
  intros T. unfold parseInfluences. rewrite (get_of_truthy _ "influences" T). cbn [bind].
  destruct (truthy (get_opt item "influences")); [|eexists; reflexivity].
  destruct (get_opt item "influences"); eexists; reflexivity.
Qed.

Lemma parseGearSlot_total (item : value) :
  itemWellTyped item = true -> exists r, parseGearSlot item = Ok r.
Proof.
  unfold itemWellTyped, parseGearSlot.
  destruct (truthy item) eqn:T; cbn [negb orb]; [|intros _; eexists; reflexivity].
  intros H. apply andb_true_iff in H as [Hname Hmods].
  rewrite (get_of_truthy _ "$" T). cbn [bind].
  destruct (truthy (get_opt item "$")) eqn:TN; cbn [negb orb] in *; [|eexists; reflexivity].
  unfold determineSlotType.
  rewrite (get_of_truthy _ "slot" T), (get_of_truthy _ "$" T). cbn [bind]. rewrite TN. cbn [negb].
  assert (Hslot : exists o,
            (if truthy (get_opt item "slot") then Ok (Some (get_opt item "slot"))
             else match get_opt item "$" with
                  | VStr s => if includes (toLowerCase s) "flask"
                              then Ok (Some (VStr "Flask1")) else Ok None
                  | _ => Throw (TypeError "item.$.toLowerCase is not a function")
                  end) = Ok o).
  { destruct (truthy (get_opt item "slot")); [eexists; reflexivity|].
    destruct (get_opt item "$"); try discriminate.
    destruct (includes _ _); eexists; reflexivity. }
  destruct Hslot as [o ->]. cbn [bind].
  destruct o as [st|]; [|eexists; reflexivity].
  rewrite (get_of_truthy _ "baseType" T), (get_of_truthy _ "itemClass" T). cbn [bind].
  destruct (parseAffixes_total item T Hmods) as [afx ->]. cbn [bind].
  rewrite (get_of_truthy _ "implicit" T), (get_of_truthy _ "corrupted" T). cbn [bind].
  destruct (parseInfluences_total item T) as [infl ->]. cbn [bind].
  eexists; reflexivity.
Qed.

Lemma collectSlots_total (items : list value) :
  forallb itemWellTyped items = true -> exists gear, collectSlots items = Ok gear.
Proof.
  induction items as [|it items IH]; cbn [forallb collectSlots]; intros H.
  - eexists; reflexivity.
  - apply andb_true_iff in H as [H1 H2].
    destruct (parseGearSlot_total it H1) as [r ->].
    destruct (IH H2) as [gear ->]. cbn [bind]. eexists; reflexivity.
Qed.

(** C4, as the code has it: for an absent section, and for every section
    in which each item's name is a string when present and each modifier is
    there with a string for its text, the extractor returns exactly fifteen
    entries, one per fixed slot in the fixed order, without duplicates, each
    the [Empty] placeholder or an item parsed from the section. *)
Theorem parseGear_fifteen_slots (gearSection : value) :
  forallb itemWellTyped (sectionItems gearSection) = true ->
  exists slots, parseGear gearSection = Ok slots /\ fifteenSlots gearSection slots.
Proof.
  intros H.
  assert (Hret : exists slots, parseGear gearSection = Ok slots).
  { unfold parseGear, sectionItems in *.
    destruct (truthy gearSection) eqn:T; cbn [negb]; [|eexists; reflexivity].
    rewrite (get_of_truthy _ "Item" T). cbn [bind].
    destruct (truthy (get_opt gearSection "Item")) eqn:TI; cbn [negb];
      [|eexists; reflexivity].
    destruct (collectSlots_total _ H) as [gear ->]. cbn [bind]. eexists; reflexivity. }
  destruct Hret as [slots Hs]. exists slots. split; [exact Hs|].
  exact (parseGear_returns_fifteen _ _ Hs).
Qed.

(** A run of the theorem on a section with a flask, a helmet with one
    modifier and an item without a name. *)
Lemma parseGear_fifteen_slots_run :
  let section :=
    VObj [("Item",
           VArr [VObj [("$", VStr "Divine Life Flask")];
                 VObj [("$", VStr "Goldrim"); ("slot", VStr "Helmet");
                       ("mods", VObj [("mod", VObj [("str", VStr "+30 to maximum Life")])])];
                 VObj [("baseType", VStr "Leather Cap")]])] in
  exists slots, parseGear section = Ok slots /\ fifteenSlots section slots.
Proof.
  apply (parseGear_fifteen_slots
           (VObj [("Item",
                   VArr [VObj [("$", VStr "Divine Life Flask")];
                         VObj [("$", VStr "Goldrim"); ("slot", VStr "Helmet");
                               ("mods", VObj [("mod", VObj [("str", VStr "+30 to maximum Life")])])];
                         VObj [("baseType", VStr "Leather Cap")]])])).
  vm_compute. reflexivity.
Defined.

(** An absent section is covered: its item list is empty. *)
Example parseGear_absent :
  parseGear VUndef = Ok (map createEmptySlot GEAR_SLOTS)
  /\ parseGear VNull = Ok (map createEmptySlot GEAR_SLOTS)
  /\ forallb itemWellTyped (sectionItems VUndef) = true.
Proof. repeat split. Qed.

(** C4 as stated fails: not every input gets a list.  An item without a
    slot whose name is the number 5 makes [determineSlotType] call
    [toLowerCase] on a number, and a modifier whose text is a number makes
    [parseAffixValue] call [match] on it; both raise a TypeError that
    leaves [parseGear]. *)
Example parseGear_raises :
  parseGear (VObj [("Item", VObj [("$", VNum (Int 5))])])
  = Throw (TypeError "item.$.toLowerCase is not a function")
  /\ parseGear (VObj [("Item", VObj [("$", VStr "Goldrim"); ("slot", VStr "Helmet");
                                     ("mods", VObj [("mod", VObj [("str", VNum (Int 30))])])])])
     = Throw (TypeError "text.match is not a function").
Proof. split; reflexivity. Qed.

End GearExtractor.

(** ** The cache and the parse handler *)

Lemma Forall_firstn_keep {A} (Q : A -> Prop) (n : nat) (l : list A) :
  Forall Q l -> Forall Q (firstn n l).
Proof.
  intros H. revert n. induction H as [|x l Hx _ IH]; intros [|n]; cbn [firstn];
    constructor; auto.
Qed.

Section CacheFacts.
Import Cache.

Variable V : Type.
Variable cfg : Config.

Lemma lookup_head (k : string) (v : V) (t : Z) (c : LRUCache V) :
  lookup k (mkEntry k v t :: c) = Some (mkEntry k v t).
Proof. cbn [lookup key]. now rewrite String.eqb_refl. Qed.

Lemma evict_head (e : Entry V) (c : LRUCache V) :
  exists rest, evict cfg (e :: c) = e :: rest.
Proof.
  unfold evict. destruct (CACHE_MAX_SIZE cfg) as [|n].
  - exists c. reflexivity.
  - exists (firstn n c). reflexivity.
Qed.

Lemma fresh_entry_not_stale (e : Entry V) (now : Z) :
  CACHE_TTL_MS cfg = 0 \/ now - start e <= CACHE_TTL_MS cfg ->
  isStale cfg now e = false.
Proof.
  unfold isStale. intros [H|H].
  - rewrite H. reflexivity.
  - apply andb_false_iff. right. rewrite Z.gtb_ltb. apply Z.ltb_ge. exact H.
Qed.

(** A [get] that finds its key leaves the entry at the front with a
    restarted age. *)
Lemma get_hit (now : Z) (k : string) (c c' : LRUCache V) (v : V) :
  get cfg now k c = (Some v, c') -> exists rest, c' = mkEntry k v now :: rest.
Proof.
  unfold get. destruct (lookup k c) as [e|]; [|discriminate].
  destruct (isStale cfg now e); [discriminate|].
  intros [= <- <-]. eexists; reflexivity.
Qed.

Lemma set_front (now : Z) (k : string) (v : V) (c : LRUCache V) :
  exists rest, set cfg now k v c = mkEntry k v now :: rest.
Proof. unfold set. apply evict_head. Qed.

(** Looking a key up again before its time to live has run out gives the
    value back. *)
Lemma get_front (t1 t2 : Z) (k : string) (v : V) (rest : LRUCache V) :
  CACHE_TTL_MS cfg = 0 \/ t2 - t1 <= CACHE_TTL_MS cfg ->
  get cfg t2 k (mkEntry k v t1 :: rest)
  = (Some v, mkEntry k v t2 :: remove k (mkEntry k v t1 :: rest)).
Proof.
  intros H. unfold get. rewrite lookup_head.
  rewrite fresh_entry_not_stale; [reflexivity | exact H].
Qed.

Variable P : V -> Prop.

Lemma lookup_Forall (k : string) (c : LRUCache V) (e : Entry V) :
  Forall (fun e => P (val e)) c -> lookup k c = Some e -> P (val e).
Proof.
  induction 1 as [|x c Hx _ IH]; cbn [lookup]; [discriminate|].
  destruct (key x =? k)%string; [intros [= <-]; exact Hx | exact IH].
Qed.

Lemma remove_Forall (k : string) (c : LRUCache V) :
  Forall (fun e => P (val e)) c -> Forall (fun e => P (val e)) (remove k c).
Proof.
  intros H. apply Forall_forall. intros e He.
  apply filter_In in He as [He _]. rewrite Forall_forall in H. exact (H e He).
Qed.

Lemma evict_Forall (c : LRUCache V) :
  Forall (fun e => P (val e)) c -> Forall (fun e => P (val e)) (evict cfg c).
Proof.
  intros H. unfold evict. destruct (CACHE_MAX_SIZE cfg) as [|n]; [exact H|].
  apply Forall_firstn_keep, H.
Qed.

Lemma get_Forall (now : Z) (k : string) (c c' : LRUCache V) (o : option V) :
  Forall (fun e => P (val e)) c -> get cfg now k c = (o, c') ->
  Forall (fun e => P (val e)) c' /\ (forall v, o = Some v -> P v).
Proof.
  intros H. unfold get. destruct (lookup k c) as [e|] eqn:L.
  - pose proof (lookup_Forall k c e H L) as He.
    destruct (isStale cfg now e); intros [= <- <-].
    + split; [apply remove_Forall, H | discriminate].
    + split; [constructor; [exact He | apply remove_Forall, H] | now intros v [= <-]].
  - intros [= <- <-]. split; [exact H | discriminate].
Qed.

Lemma set_Forall (now : Z) (k : string) (v : V) (c : LRUCache V) :
  P v -> Forall (fun e => P (val e)) c -> Forall (fun e => P (val e)) (set cfg now k v c).
Proof.
  intros Hv H. unfold set. apply evict_Forall. constructor; [exact Hv|].
  apply remove_Forall, H.
Qed.

End CacheFacts.

Section ParseHandler.
Import ParseTool.

Variables PassiveTree Stats : Type.
Variable E : Collaborators PassiveTree Stats.
Variable cfg : Cache.Config.

Local Abbreviation Build := (ParsedBuild PassiveTree Stats).
Local Abbreviation State := (ParseTool.State PassiveTree Stats).

Ltac step_binds H :=
  repeat match type of H with
         | bind ?m _ = Ok _ => destruct m; cbn [bind] in H; [|discriminate H]
         end.

(** The build the handler assembles has the empty [buildId]. *)
Lemma assemble_buildId (date buildCode : string) (b : Build) :
  assemble E date buildCode = Ok b -> buildId b = "".
Proof.
  unfold assemble. intros H. step_binds H. injection H as <-. reflexivity.
Qed.

(** A successful call leaves its build at the front of the cache, stamped
    with the time of the call. *)
Lemma handler_success_cached (now : Z) (date buildCode : string) (st st1 : State)
  (b : Build) :
  handler E cfg now date buildCode st = (Success b, st1) ->
  exists rest,
    buildCache st1 = Cache.mkEntry (generateCacheKey E buildCode) b now :: rest.
Proof.
  unfold handler, getCachedBuild, setCachedBuild.
  destruct (Cache.get cfg now _ (buildCache st)) as [[cached|] c] eqn:G.
  - intros [= <- <-]. exact (get_hit _ cfg _ _ _ _ _ G).
  - destruct (assemble E date buildCode) as [build|e]; [|discriminate].
    intros [= <- <-]. apply set_front.
Qed.

(** C2: when a call of the handler on [x] succeeds with build [b], a
    second call on [x] made before the time to live has run out returns the
    same [b], and it is answered from the cache: the decode-and-extract
    pipeline is not entered again. *)
Theorem parse_twice_served_from_cache
  (now1 now2 : Z) (date1 date2 x : string) (st st1 : State) (b : Build) :
  handler E cfg now1 date1 x st = (Success b, st1) ->
  ttlNotElapsed cfg now1 now2 ->
  exists st2,
    handler E cfg now2 date2 x st1 = (Success b, st2)
    /\ pipelineRuns st2 = pipelineRuns st1.
Proof.
  intros H1 Httl.
  destruct (handler_success_cached _ _ _ _ _ _ H1) as [rest Hc].
  unfold handler, getCachedBuild. rewrite Hc.
  rewrite (get_front _ cfg now1 now2 _ b rest Httl).
  eexists. split; reflexivity.
Qed.

(** The second answer does not depend on the decoder, the XML reader or
    the extractors at all: any collaborators with the same hash give it. *)
Lemma second_call_ignores_pipeline
  (E' : Collaborators PassiveTree Stats)
  (now1 now2 : Z) (date1 date2 x : string) (st st1 : State) (b : Build) :
  sha256hex E' = sha256hex E ->
  handler E cfg now1 date1 x st = (Success b, st1) ->
  ttlNotElapsed cfg now1 now2 ->
  handler E' cfg now2 date2 x st1 = handler E cfg now2 date2 x st1.
Proof.
  intros Hh H1 Httl.
  destruct (handler_success_cached _ _ _ _ _ _ H1) as [rest Hc].
  unfold handler, getCachedBuild, generateCacheKey in *. rewrite Hh, Hc.
  rewrite (get_front _ cfg now1 now2 _ b rest Httl). reflexivity.
Qed.

Lemma handler_keeps_clean (now : Z) (date x : string) (st : State) :
  cacheClean (buildCache st) ->
  cacheClean (buildCache (snd (handler E cfg now date x st)))
  /\ (forall b, fst (handler E cfg now date x st) = Success b -> buildId b = "").
Proof.
  intros Hclean. unfold handler, getCachedBuild, setCachedBuild.
  destruct (Cache.get cfg now _ (buildCache st)) as [[cached|] c] eqn:G;
    destruct (get_Forall _ cfg (fun v : Build => buildId v = "") _ _ _ _ _ Hclean G)
      as [Hc Ho].
  - cbn [fst snd buildCache]. split; [exact Hc|].
    intros b [= <-]. now apply Ho.
  - destruct (assemble E date x) as [build|e] eqn:A; cbn [fst snd buildCache].
    + pose proof (assemble_buildId _ _ _ A) as Hb. split.
      * apply (set_Forall _ cfg (fun v : Build => buildId v = "")); assumption.
      * now intros b [= <-].
    + split; [exact Hc | discriminate].
Qed.

Lemma reachable_clean (st : State) :
  reachable E cfg st -> cacheClean (buildCache st).
Proof.
  induction 1 as [|st now date x _ IH].
  - constructor.
  - exact (proj1 (handler_keeps_clean now date x st IH)).
Qed.

(** C10: in every state the process can reach from start-up, a call that
    succeeds returns a build whose [buildId] is the empty string, whether
    the build was just assembled or came out of the cache. *)
Theorem buildId_always_empty
  (st st' : State) (now : Z) (date x : string) (b : Build) :
  reachable E cfg st ->
  handler E cfg now date x st = (Success b, st') ->
  buildId b = "".
Proof.
  intros Hr H.
  apply (proj2 (handler_keeps_clean now date x st (reachable_clean st Hr))).
  rewrite H. reflexivity.
Qed.

(** On a cache miss, an exception of the pipeline becomes the error
    response built by [wrapError]. *)
Lemma handler_miss_failure (now : Z) (date x : string) (st : State)
  (c : Cache.LRUCache Build) (e : exn) :
  getCachedBuild E cfg now x (buildCache st) = (None, c) ->
  assemble E date x = Throw e ->
  handler E cfg now date x st
  = (Failure (Errors.wrapError (stack E) e "parse_pob_code"),
     mkState c (S (pipelineRuns st))).
Proof. intros G A. unfold handler. rewrite G, A. reflexivity. Qed.

(** The version gate seen from the tool: on a cache miss, a decoded
    document whose root declares a non-empty version below the minimum is
    answered with the UNSUPPORTED_VERSION error. *)
Lemma parse_rejects_old_version (now : Z) (date x v : string) (st : State)
  (c : Cache.LRUCache Build) (fields : list (string * value)) :
  getCachedBuild E cfg now x (buildCache st) = (None, c) ->
  parsePoBXML E x = Ok (VObj fields) ->
  assoc "version" fields = VStr v -> v <> "" -> String.ltb v Xml.minVersion = true ->
  fst (handler E cfg now date x st)
  = Failure (Errors.mkMcpError UNSUPPORTED_VERSION
               ("PoB version " ++ v ++ " is not supported (minimum: " ++ Xml.minVersion ++ ")")
               "").
Proof.
  intros G P Hv Hne Hlt.
  rewrite (handler_miss_failure now date x st c
             (PoBParsingError UNSUPPORTED_VERSION
                ("PoB version " ++ v ++ " is not supported (minimum: " ++ Xml.minVersion ++ ")")
                None) G).
  - reflexivity.
  - unfold assemble. rewrite P. cbn [bind].
    rewrite (validatePoBVersion_below fields v Hv Hne Hlt). reflexivity.
Qed.

End ParseHandler.

Section ParseHandlerRuns.
Import ParseTool.

(** A run of C2's theorem: two calls, 1000 ms apart, on a stub pipeline. *)
Lemma parse_twice_served_from_cache_run :
  let E := stubCollaborators sampleDocument in
  let run1 := handler E Cache.defaultConfig 0 "2026-01-15T10:00:00.000Z" "QUJD" initialState in
  exists b st2,
    fst run1 = Success b
    /\ handler E Cache.defaultConfig 1000 "2026-01-15T10:00:01.000Z" "QUJD" (snd run1)
       = (Success b, st2)
    /\ pipelineRuns st2 = pipelineRuns (snd run1)
    /\ parsedAt b = "2026-01-15T10:00:00.000Z".
Proof.
  cbv zeta.
  destruct (handler (stubCollaborators sampleDocument) Cache.defaultConfig 0
              "2026-01-15T10:00:00.000Z" "QUJD" initialState) as [r st1] eqn:H1.
  assert (Hr : exists b, r = Success b /\ parsedAt b = "2026-01-15T10:00:00.000Z").
  { vm_compute in H1. injection H1 as <- _. eexists. split; reflexivity. }
  destruct Hr as (b & -> & Hdate).
  destruct (parse_twice_served_from_cache unit unit (stubCollaborators sampleDocument)
              Cache.defaultConfig 0 1000
              "2026-01-15T10:00:00.000Z" "2026-01-15T10:00:01.000Z" "QUJD"
              initialState st1 b H1) as (st2 & H2 & Hruns).
  { right. vm_compute. discriminate. }
  exists b, st2. cbn [fst snd]. repeat split; assumption.
Defined.

(** A run of C10's theorem: the second of two calls, a cache hit. *)
Lemma buildId_always_empty_run :
  let E := stubCollaborators sampleDocument in
  let st1 := snd (handler E Cache.defaultConfig 0 "2026-01-15T10:00:00.000Z" "QUJD" initialState) in
  exists b st2,
    handler E Cache.defaultConfig 1000 "2026-01-15T10:00:01.000Z" "QUJD" st1 = (Success b, st2)
    /\ buildId b = "".
Proof.
  cbv zeta.
  destruct (handler (stubCollaborators sampleDocument) Cache.defaultConfig 1000
              "2026-01-15T10:00:01.000Z" "QUJD" _) as [r st2] eqn:H2.
  assert (Hr : exists b, r = Success b).
  { vm_compute in H2. injection H2 as <- _. eexists. reflexivity. }
  destruct Hr as (b & ->).
  exists b, st2. split; [reflexivity|].
  apply (buildId_always_empty unit unit (stubCollaborators sampleDocument) Cache.defaultConfig
           _ st2 1000 "2026-01-15T10:00:01.000Z" "QUJD" b
           (reach_call _ _ _ 0 "2026-01-15T10:00:00.000Z" "QUJD" (reach_init _ _)) H2).
Defined.

End ParseHandlerRuns.

(** ** Deduplicate, sort, cap *)

Section AggregatorFacts.
Import Suggest Aggregator.

Lemma Subseq_refl {A} (l : list A) : Subseq l l.
Proof. induction l; constructor; assumption. Qed.

Lemma Subseq_In {A} (xs ys : list A) (x : A) : Subseq xs ys -> In x xs -> In x ys.
Proof.
  induction 1 as [|y xs ys _ IH|y xs ys _ IH]; cbn [In]; intros H; auto.
  destruct H as [H|H]; auto.
Qed.

Lemma Subseq_trans {A} (xs ys zs : list A) : Subseq xs ys -> Subseq ys zs -> Subseq xs zs.
Proof.
  intros H1 H2. revert xs H1.
  induction H2 as [|z ys zs _ IH|z ys zs _ IH]; intros xs H1.
  - exact H1.
  - constructor. apply IH, H1.
  - inversion H1; subst.
    + constructor. apply IH. assumption.
    + apply subseq_keep. apply IH. assumption.
Qed.

Lemma Subseq_map {A B} (f : A -> B) (xs ys : list A) :
  Subseq xs ys -> Subseq (map f xs) (map f ys).
Proof. induction 1; cbn [map]; constructor; assumption. Qed.

Lemma Subseq_NoDup {A} (xs ys : list A) : Subseq xs ys -> NoDup ys -> NoDup xs.
Proof.
  induction 1 as [|y xs ys _ IH|y xs ys Hs IH]; intros Hnd.
  - constructor.
  - inversion Hnd; subst. apply IH. assumption.
  - inversion Hnd; subst. constructor; [|apply IH; assumption].
    intros Hin. apply (Subseq_In _ _ _ Hs) in Hin. contradiction.
Qed.

Lemma Subseq_StronglySorted {A} (R : A -> A -> Prop) (xs ys : list A) :
  Subseq xs ys -> StronglySorted R ys -> StronglySorted R xs.
Proof.
  induction 1 as [|y xs ys _ IH|y xs ys Hs IH]; intros Hso.
  - constructor.
  - inversion Hso; subst. apply IH. assumption.
  - inversion Hso as [|? ? Hrest Hall]; subst. constructor; [apply IH; assumption|].
    rewrite Forall_forall in *. intros x Hx. apply Hall. exact (Subseq_In _ _ _ Hs Hx).
Qed.

(** Two suggestions have the same key exactly when they agree on category
    and description. *)
Lemma dedupKey_same (a b : Suggestion) :
  dedupKey a = dedupKey b <-> category a = category b /\ description a = description b.
Proof.
  unfold dedupKey. split.
  - destruct (category a), (category b); cbn; intros H; split; congruence.
  - intros [-> ->]. reflexivity.
Qed.

Lemma seen_spec (k : string) (seen : list string) :
  existsb (String.eqb k) seen = true <-> In k seen.
Proof.
  rewrite existsb_exists. split.
  - intros (x & Hx & He). apply String.eqb_eq in He. now subst.
  - intros H. exists k. split; [exact H | apply String.eqb_refl].
Qed.

Lemma dedupLoop_Subseq (seen : list string) (l : list Suggestion) :
  Subseq (dedupLoop seen l) l.
Proof.
  revert seen. induction l as [|s l IH]; intros seen; cbn [dedupLoop].
  - constructor.
  - destruct (existsb _ seen); constructor; apply IH.
Qed.

Lemma dedupLoop_unseen (seen : list string) (l : list Suggestion) (s : Suggestion) :
  In s (dedupLoop seen l) -> ~ In (dedupKey s) seen.
Proof.
  revert seen. induction l as [|x l IH]; intros seen; cbn [dedupLoop]; [intros []|].
  destruct (existsb _ seen) eqn:E.
  - apply IH.
  - intros [<-|H].
    + intros Hin. apply seen_spec in Hin. congruence.
    + intros Hin. apply (IH _ H). right. exact Hin.
Qed.

Lemma dedupLoop_NoDup (seen : list string) (l : list Suggestion) :
  NoDup (map dedupKey (dedupLoop seen l)).
Proof.
  revert seen. induction l as [|x l IH]; intros seen; cbn [dedupLoop].
  - constructor.
  - destruct (existsb _ seen) eqn:E; [apply IH|].
    cbn [map]. constructor; [|apply IH].
    intros Hin. apply in_map_iff in Hin as (s & Hk & Hs).
    apply dedupLoop_unseen in Hs. apply Hs. left. symmetry. exact Hk.
Qed.

Lemma dedupLoop_find (k : string) (seen : list string) (l : list Suggestion) :
  find (fun s => (dedupKey s =? k)%string) (dedupLoop seen l)
  = if existsb (String.eqb k) seen then None
    else find (fun s => (dedupKey s =? k)%string) l.
Proof.
  revert seen. induction l as [|x l IH]; intros seen; cbn [dedupLoop find].
  - destruct (existsb _ seen); reflexivity.
  - destruct (existsb (String.eqb (dedupKey x)) seen) eqn:Ex.
    + rewrite IH. destruct (existsb (String.eqb k) seen) eqn:Ek; [reflexivity|].
      destruct (String.eqb_spec (dedupKey x) k) as [He|_]; [|reflexivity].
      rewrite He in Ex. congruence.
    + cbn [find]. destruct (String.eqb_spec (dedupKey x) k) as [He|Hne].
      * rewrite <- He, Ex. reflexivity.
      * rewrite IH. cbn [existsb].
        destruct (String.eqb_spec k (dedupKey x)) as [He|_]; [|reflexivity].
        symmetry in He. contradiction.
Qed.

(** X1: deduplication keeps, for every (category, description) pair, the
    first suggestion of the input that has it, and nothing else: the result
    is the input with elements left out, no two results agree on category
    and description, and looking a key up finds the same suggestion in the
    result as in the input. *)
Theorem deduplicate_first_wins (l : list Suggestion) :
  Subseq (deduplicateSuggestions l) l
  /\ NoDup (map dedupKey (deduplicateSuggestions l))
  /\ (forall a b, In a (deduplicateSuggestions l) -> In b (deduplicateSuggestions l) ->
        category a = category b -> description a = description b -> a = b)
  /\ (forall k, find (fun s => (dedupKey s =? k)%string) (deduplicateSuggestions l)
                = find (fun s => (dedupKey s =? k)%string) l).
Proof.
  unfold deduplicateSuggestions. split; [apply dedupLoop_Subseq|].
  split; [apply dedupLoop_NoDup|]. split.
  - intros a b Ha Hb Hc Hd.
    assert (Hk : dedupKey a = dedupKey b) by (apply dedupKey_same; auto).
    pose proof (dedupLoop_NoDup [] l) as Hnd.
    revert Ha Hb Hnd. generalize (dedupLoop [] l) as out.
    induction out as [|x out IH]; cbn [In map]; [intros []|].
    intros Ha Hb Hnd. inversion Hnd as [|? ? Hx Hrest]; subst.
    destruct Ha as [->|Ha], Hb as [->|Hb]; auto.
    + exfalso. apply Hx. rewrite Hk. now apply in_map.
    + exfalso. apply Hx. rewrite <- Hk. now apply in_map.
  - intros k. apply (dedupLoop_find k [] l).
Qed.

Lemma compare_rank (a b : Suggestion) :
  compareSuggestions a b <= 0 <-> rank a <= rank b.
Proof.
  unfold compareSuggestions, rank.
  destruct (priority a), (priority b), (category a), (category b); cbn; lia.
Qed.

Lemma insertSorted_perm (x : Suggestion) (l : list Suggestion) :
  Permutation (insertSorted x l) (x :: l).
Proof.
  induction l as [|y l IH]; cbn [insertSorted]; [reflexivity|].
  destruct (_ <=? 0); [reflexivity|].
  rewrite IH. apply perm_swap.
Qed.

Lemma sortSuggestions_perm (l : list Suggestion) : Permutation (sortSuggestions l) l.
Proof.
  induction l as [|x l IH]; cbn [sortSuggestions]; [reflexivity|].
  rewrite insertSorted_perm. now constructor.
Qed.

Lemma insertSorted_sorted (x : Suggestion) (l : list Suggestion) :
  StronglySorted (fun a b => rank a <= rank b) l ->
  StronglySorted (fun a b => rank a <= rank b) (insertSorted x l).
Proof.
  induction 1 as [|y l Hl IH Hy]; cbn [insertSorted].
  - repeat constructor.
  - destruct (compareSuggestions x y <=? 0) eqn:E.
    + apply Z.leb_le, compare_rank in E.
      constructor; [constructor; assumption|].
      constructor; [exact E|].
      rewrite Forall_forall in *. intros z Hz. specialize (Hy z Hz). lia.
    + apply Z.leb_gt in E.
      assert (Hyx : rank y <= rank x).
      { destruct (Z.le_gt_cases (rank x) (rank y)) as [H|H]; [|lia].
        apply compare_rank in H. lia. }
      constructor; [exact IH|].
      apply Forall_forall. intros z Hz.
      apply (Permutation_in _ (insertSorted_perm x l)) in Hz.
      destruct Hz as [<-|Hz]; [exact Hyx|].
      rewrite Forall_forall in Hy. apply Hy, Hz.
Qed.

Lemma sortSuggestions_sorted (l : list Suggestion) :
  StronglySorted (fun a b => rank a <= rank b) (sortSuggestions l).
Proof.
  induction l as [|x l IH]; cbn [sortSuggestions]; [constructor|].
  apply insertSorted_sorted, IH.
Qed.

Lemma insertSorted_filter (r : Z) (x : Suggestion) (l : list Suggestion) :
  filter (fun s => rank s =? r) (insertSorted x l)
  = filter (fun s => rank s =? r) (x :: l).
Proof.
  induction l as [|y l IH]; cbn [insertSorted]; [reflexivity|].
  destruct (compareSuggestions x y <=? 0) eqn:E; [reflexivity|].
  apply Z.leb_gt in E.
  assert (Hlt : rank y < rank x).
  { destruct (Z.lt_ge_cases (rank y) (rank x)) as [H|H]; [exact H|].
    apply compare_rank in H. lia. }
  cbn [filter] in *. rewrite IH.
  destruct (rank x =? r) eqn:Ex, (rank y =? r) eqn:Ey; try reflexivity.
  apply Z.eqb_eq in Ex, Ey. lia.
Qed.

Lemma sortSuggestions_filter (r : Z) (l : list Suggestion) :
  filter (fun s => rank s =? r) (sortSuggestions l) = filter (fun s => rank s =? r) l.
Proof.
  induction l as [|x l IH]; cbn [sortSuggestions]; [reflexivity|].
  rewrite insertSorted_filter. cbn [filter]. now rewrite IH.
Qed.

Lemma rank_same (s : Suggestion) (p : SuggestionPriority) (c : SuggestionCategory) :
  (rank s =? 4 * (3 - priorityWeight p) + categoryIndex c)
  = (priority_eqb (priority s) p && category_eqb (category s) c)%bool.
Proof. unfold rank. destruct (priority s), p, (category s), c; reflexivity. Qed.

(** X2: sorting rearranges the suggestions without losing or adding any;
    in the result every critical precedes every important, which precedes
    every optional, and within a priority the categories come in the
    order gear, passives, gems, utility; suggestions of the same priority
    and category keep the order they had. *)
Theorem sortSuggestions_stable_order (l : list Suggestion) :
  Permutation (sortSuggestions l) l
  /\ StronglySorted
       (fun a b =>
          priorityWeight (priority a) > priorityWeight (priority b)
          \/ (priority a = priority b
              /\ categoryIndex (category a) <= categoryIndex (category b)))
       (sortSuggestions l)
  /\ (forall p c,
        filter (fun s => (priority_eqb (priority s) p && category_eqb (category s) c)%bool)
               (sortSuggestions l)
        = filter (fun s => (priority_eqb (priority s) p && category_eqb (category s) c)%bool) l).
Proof.
  split; [apply sortSuggestions_perm|]. split.
  - pose proof (sortSuggestions_sorted l) as H.
    induction H as [|x xs _ IH Hx]; constructor; [exact IH|].
    rewrite Forall_forall in *. intros y Hy. specialize (Hx y Hy).
    unfold rank in Hx.
    destruct (priority x), (priority y), (category x), (category y); cbn in *;
      first [left; lia | right; split; [reflexivity | lia] | lia].
  - intros p c.
    rewrite (filter_ext _ (fun s => rank s =? 4 * (3 - priorityWeight p) + categoryIndex c)
               (fun s => eq_sym (rank_same s p c))).
    rewrite (filter_ext (fun s => (priority_eqb (priority s) p && category_eqb (category s) c)%bool)
               (fun s => rank s =? 4 * (3 - priorityWeight p) + categoryIndex c)
               (fun s => eq_sym (rank_same s p c))).
    apply sortSuggestions_filter.
Qed.

End AggregatorFacts.

Section CapFacts.
Import Suggest Aggregator.

Lemma limitLoop_Subseq (m : Z) (cnt : SuggestionCategory -> Z) (l : list Suggestion) :
  Subseq (limitLoop m cnt l) l.
Proof.
  revert cnt. induction l as [|s l IH]; intros cnt; cbn [limitLoop].
  - constructor.
  - destruct (_ || _)%bool; constructor; apply IH.
Qed.

Lemma limitLoop_critical (m : Z) (cnt : SuggestionCategory -> Z) (l : list Suggestion) :
  filter isCritical (limitLoop m cnt l) = filter isCritical l.
Proof.
  revert cnt. induction l as [|s l IH]; intros cnt; cbn [limitLoop filter]; [reflexivity|].
  unfold isCritical at 2. destruct (priority_eqb (priority s) critical) eqn:E.
  - rewrite orb_true_r. cbn [filter]. unfold isCritical at 1. rewrite E. now rewrite IH.
  - rewrite orb_false_r. destruct (_ <? m).
    + cbn [filter]. unfold isCritical at 1. rewrite E. apply IH.
    + apply IH.
Qed.

Lemma setCount_same (cnt : SuggestionCategory -> Z) (c : SuggestionCategory) (v : Z) :
  setCount cnt c v c = v.
Proof. unfold setCount. destruct c; reflexivity. Qed.

Lemma setCount_other (cnt : SuggestionCategory -> Z) (c c' : SuggestionCategory) (v : Z) :
  category_eqb c' c = false -> setCount cnt c v c' = cnt c'.
Proof. unfold setCount. intros ->. reflexivity. Qed.

Lemma category_eqb_eq (a b : SuggestionCategory) : category_eqb a b = true <-> a = b.
Proof. destruct a, b; cbn; split; intros H; congruence. Qed.

(** Non-critical entries of category [c] that the loop lets through, from
    a state in which [cnt c] entries of that category were already let
    through. *)
Lemma limitLoop_bound (m : Z) (c : SuggestionCategory) (cnt : SuggestionCategory -> Z)
  (l : list Suggestion) :
  Z.of_nat (List.length (filter (fun s => (inCategory c s && negb (isCritical s))%bool)
                                (limitLoop m cnt l)))
  <= Z.max 0 (m - cnt c).
Proof.
  revert cnt. induction l as [|s l IH]; intros cnt; cbn [limitLoop filter List.length]; [lia|].
  destruct (_ || _)%bool eqn:E; [|apply IH].
  cbn [filter]. unfold inCategory at 1, isCritical at 1.
  destruct (category_eqb (category s) c) eqn:Ec.
  - apply category_eqb_eq in Ec. subst c.
    specialize (IH (setCount cnt (category s) (cnt (category s) + 1))).
    rewrite setCount_same in IH.
    destruct (priority_eqb (priority s) critical) eqn:Ep; cbn [andb negb].
    + lia.
    + rewrite orb_false_r in E. apply Z.ltb_lt in E.
      cbn [List.length]. lia.
  - cbn [andb].
    specialize (IH (setCount cnt (category s) (cnt (category s) + 1))).
    rewrite setCount_other in IH; [exact IH|].
    destruct c, (category s); cbn in *; congruence.
Qed.

Lemma limitLoop_prefix (m : Z) (c : SuggestionCategory) (cnt : SuggestionCategory -> Z)
  (l : list Suggestion) :
  (forall s, In s l -> category s = c -> priority s <> critical) ->
  filter (inCategory c) (limitLoop m cnt l)
  = firstn (Z.to_nat (m - cnt c)) (filter (inCategory c) l).
Proof.
  revert cnt. induction l as [|s l IH]; intros cnt Hnc; cbn [limitLoop filter].
  - now rewrite firstn_nil.
  - assert (Hnc' : forall s0, In s0 l -> category s0 = c -> priority s0 <> critical)
      by (intros s0 H0; apply Hnc; right; exact H0).
    unfold inCategory at 2.
    destruct (category_eqb (category s) c) eqn:Ec.
    + pose proof Ec as Ec'. apply category_eqb_eq in Ec'.
      assert (Hp : priority_eqb (priority s) critical = false).
      { specialize (Hnc s (or_introl eq_refl) Ec'). destruct (priority s); try reflexivity.
        contradiction. }
      rewrite Hp, orb_false_r. subst c.
      destruct (cnt (category s) <? m) eqn:El.
      * apply Z.ltb_lt in El. cbn [filter]. unfold inCategory at 1. rewrite Ec.
        rewrite (IH _ Hnc'), setCount_same.
        replace (Z.to_nat (m - cnt (category s)))
          with (S (Z.to_nat (m - (cnt (category s) + 1)))) by lia.
        reflexivity.
      * apply Z.ltb_ge in El. rewrite (IH _ Hnc').
        replace (Z.to_nat (m - cnt (category s))) with 0%nat by lia. reflexivity.
    + destruct (_ || _)%bool.
      * cbn [filter]. unfold inCategory at 1. rewrite Ec.
        rewrite (IH _ Hnc'). rewrite setCount_other; [reflexivity|].
        destruct c, (category s); cbn in *; congruence.
      * apply IH, Hnc'.
Qed.

(** X3: the cap never drops a critical suggestion, keeps the order of what
    it lets through, and lets through at most [maxPerCategory] non-critical
    suggestions of any one category. *)
Theorem limitSuggestions_cap (l : list Suggestion) (maxPerCategory : Z)
  (c : SuggestionCategory) :
  Subseq (limitSuggestions l maxPerCategory) l
  /\ filter isCritical (limitSuggestions l maxPerCategory) = filter isCritical l
  /\ Z.of_nat (List.length
                 (filter (fun s => (inCategory c s && negb (isCritical s))%bool)
                         (limitSuggestions l maxPerCategory)))
     <= Z.max 0 maxPerCategory.
Proof.
  unfold limitSuggestions. split; [apply limitLoop_Subseq|].
  split; [apply limitLoop_critical|].
  pose proof (limitLoop_bound maxPerCategory c (fun _ => 0) l) as H.
  now rewrite Z.sub_0_r in H.
Qed.

(** X4: in a category without critical suggestions the cap keeps exactly
    the first [maxPerCategory] suggestions of that category; with the
    handler's cap of five, six or more optional gear suggestions come out
    as the first five. *)
Theorem limitSuggestions_keeps_first (l : list Suggestion) (maxPerCategory : Z)
  (c : SuggestionCategory) :
  (forall s, In s l -> category s = c -> priority s <> critical) ->
  filter (inCategory c) (limitSuggestions l maxPerCategory)
  = firstn (Z.to_nat maxPerCategory) (filter (inCategory c) l).
Proof.
  intros H. unfold limitSuggestions.
  rewrite (limitLoop_prefix maxPerCategory c (fun _ => 0) l H).
  now rewrite Z.sub_0_r.
Qed.

End CapFacts.

(** A run of X4: seven optional gear suggestions, cap five. *)
Lemma limitSuggestions_keeps_first_run :
  let s := fun d => Suggest.mkSuggestion Suggest.gear Suggest.optional d "" "" in
  let l := [s "a"; s "b"; s "c"; s "d"; s "e"; s "f"; s "g"] in
  filter (Aggregator.inCategory Suggest.gear) (Aggregator.limitSuggestions l 5)
  = firstn (Z.to_nat 5) (filter (Aggregator.inCategory Suggest.gear) l).
Proof.
  apply (limitSuggestions_keeps_first
           [Suggest.mkSuggestion Suggest.gear Suggest.optional "a" "" "";
            Suggest.mkSuggestion Suggest.gear Suggest.optional "b" "" "";
            Suggest.mkSuggestion Suggest.gear Suggest.optional "c" "" "";
            Suggest.mkSuggestion Suggest.gear Suggest.optional "d" "" "";
            Suggest.mkSuggestion Suggest.gear Suggest.optional "e" "" "";
            Suggest.mkSuggestion Suggest.gear Suggest.optional "f" "" "";
            Suggest.mkSuggestion Suggest.gear Suggest.optional "g" "" ""] 5 Suggest.gear).
  intros s Hs _. cbn [In] in Hs.
  repeat (destruct Hs as [<-|Hs]; [discriminate|]). destruct Hs.
Defined.

Section SuggestHandlerFacts.
Import Suggest Aggregator.

Variables gemS passiveS gearS utilityS : list Suggestion.
Variable analysis : BuildAnalysis.

Local Abbreviation candidates := (gemS ++ passiveS ++ gearS ++ utilityS)%list.
Local Abbreviation rescored := (map (fun s => scoreSuggestionPriority s analysis) candidates).
Local Abbreviation output := (Aggregator.handler gemS passiveS gearS utilityS analysis).

Lemma output_Subseq : Subseq output (sortSuggestions (deduplicateSuggestions rescored)).
Proof. unfold Aggregator.handler, limitSuggestions. apply limitLoop_Subseq. Qed.

Lemma In_sorted_dedup (s : Suggestion) :
  In s (sortSuggestions (deduplicateSuggestions rescored)) ->
  exists s0, In s0 candidates /\ s = scoreSuggestionPriority s0 analysis.
Proof.
  intros H. apply (Permutation_in _ (sortSuggestions_perm _)) in H.
  apply (Subseq_In _ _ _ (dedupLoop_Subseq [] _)) in H.
  apply in_map_iff in H as (s0 & <- & H0). exists s0. auto.
Qed.

(** X5: what the handler returns is ordered by priority and then by
    category, holds no two suggestions with the same category and
    description, and consists of rescored candidates only; every rescored
    candidate that is critical is returned, or stands for an earlier
    candidate with the same category and description. *)
Theorem suggest_output_shape :
  StronglySorted (fun a b => rank a <= rank b) output
  /\ NoDup (map dedupKey output)
  /\ (forall s, In s output ->
        exists s0, In s0 candidates /\ s = scoreSuggestionPriority s0 analysis)
  /\ (forall s, In s (deduplicateSuggestions rescored) -> priority s = critical ->
        In s output).
Proof.
  split; [|split; [|split]].
  - exact (Subseq_StronglySorted _ _ _ output_Subseq (sortSuggestions_sorted _)).
  - apply (Subseq_NoDup _ _ (Subseq_map dedupKey _ _ output_Subseq)).
    apply (Permutation_NoDup (Permutation_sym (Permutation_map dedupKey (sortSuggestions_perm _)))).
    apply dedupLoop_NoDup.
  - intros s H. apply In_sorted_dedup. exact (Subseq_In _ _ _ output_Subseq H).
  - intros s Hs Hc.
    assert (Hin : In s (filter isCritical (sortSuggestions (deduplicateSuggestions rescored)))).
    { apply filter_In. split.
      - apply (Permutation_in _ (Permutation_sym (sortSuggestions_perm _))). exact Hs.
      - unfold isCritical. rewrite Hc. reflexivity. }
    unfold Aggregator.handler, limitSuggestions.
    rewrite <- (limitLoop_critical 5 (fun _ => 0)) in Hin.
    apply filter_In in Hin. apply Hin.
Qed.

Lemma all_critical_unlimited (m : Z) (cnt : SuggestionCategory -> Z) (l : list Suggestion) :
  Forall (fun s => priority s = critical) l -> limitLoop m cnt l = l.
Proof.
  intros H. revert cnt. induction H as [|s l Hs _ IH]; intros cnt; cbn [limitLoop]; [reflexivity|].
  rewrite Hs. cbn [priority_eqb]. rewrite orb_true_r. now rewrite IH.
Qed.

(** X6: once some weakness of the analysis contains one of the critical
    phrases, every returned suggestion is critical and the cap drops
    nothing: the handler returns all candidates that differ in category or
    description, sorted. *)
Theorem critical_analysis_voids_cap :
  addressesCriticalWeakness analysis = true ->
  Forall (fun s => priority s = critical) output
  /\ output = sortSuggestions (deduplicateSuggestions rescored).
Proof.
  intros Ha.
  assert (Hall : Forall (fun s => priority s = critical)
                   (sortSuggestions (deduplicateSuggestions rescored))).
  { apply Forall_forall. intros s Hs. apply In_sorted_dedup in Hs as (s0 & _ & ->).
    apply scored_critical_iff. right. exact Ha. }
  assert (Hout : output = sortSuggestions (deduplicateSuggestions rescored)).
  { unfold Aggregator.handler, limitSuggestions. now apply all_critical_unlimited. }
  split; [rewrite Hout; exact Hall | exact Hout].
Qed.

End SuggestHandlerFacts.

(** A run of X6: two candidates, one weakness with "uncapped". *)
Lemma critical_analysis_voids_cap_run :
  let a := Suggest.mkBuildAnalysis [] ["Uncapped fire resistance (10% - need 65% more)"]
             Suggest.unknown Defense.glass_cannon Suggest.low "" in
  let g := [Suggest.mkSuggestion Suggest.gems Suggest.optional "Level up Fireball gem" "" ""] in
  let u := [Suggest.mkSuggestion Suggest.utility Suggest.optional "Add movement skill for mobility" "" ""] in
  Forall (fun s => Suggest.priority s = Suggest.critical) (Aggregator.handler g [] [] u a)
  /\ Aggregator.handler g [] [] u a
     = Aggregator.sortSuggestions
         (Aggregator.deduplicateSuggestions
            (map (fun s => Suggest.scoreSuggestionPriority s a) (g ++ [] ++ [] ++ u)%list)).
Proof.
  apply (critical_analysis_voids_cap
           [Suggest.mkSuggestion Suggest.gems Suggest.optional "Level up Fireball gem" "" ""] [] []
           [Suggest.mkSuggestion Suggest.utility Suggest.optional "Add movement skill for mobility" "" ""]
           (Suggest.mkBuildAnalysis [] ["Uncapped fire resistance (10% - need 65% more)"]
              Suggest.unknown Defense.glass_cannon Suggest.low "")).
  vm_compute. reflexivity.
Defined.

Section RescoreFacts.
Import Suggest.

(** X7: rescoring changes nothing but the priority, and never leaves a
    passives or gear suggestion at [important] when the defensive rating is
    tanky or uber_viable, nor a gems suggestion at [important] when the
    offensive rating is extreme. *)
Theorem rescore_downgrades (s : Suggestion) (a : BuildAnalysis) :
  (category (scoreSuggestionPriority s a) = category s
   /\ description (scoreSuggestionPriority s a) = description s
   /\ specificAction (scoreSuggestionPriority s a) = specificAction s
   /\ expectedImpact (scoreSuggestionPriority s a) = expectedImpact s)
  /\ ((defensiveRating a = Defense.tanky \/ defensiveRating a = Defense.uber_viable) ->
      (category s = passives \/ category s = gear) ->
      priority (scoreSuggestionPriority s a) <> important)
  /\ (offensiveRating a = extreme -> category s = gems ->
      priority (scoreSuggestionPriority s a) <> important)
  /\ (priority s = optional -> addressesCriticalWeakness a = false ->
      priority (scoreSuggestionPriority s a) = optional).
Proof.
  unfold scoreSuggestionPriority.
  destruct s as [c p d sa ei]; cbn [category priority description specificAction expectedImpact].
  destruct (addressesCriticalWeakness a), p, c, (defensiveRating a), (offensiveRating a);
    cbn; repeat split; intros; try discriminate;
    repeat match goal with H : _ \/ _ |- _ => destruct H end; discriminate.
Qed.

End RescoreFacts.

(** ** Empty slots *)

Section EmptySlots.
Import GearParser GearSuggester.

Lemma existsb_slot (slots : list GearSlot) (name : string) :
  existsb (fun g => strict_eq_str (slot g) name) slots
  = existsb (fun v => strict_eq_str v name) (map slot slots).
Proof. induction slots as [|g l IH]; cbn [existsb map]; [reflexivity | now rewrite IH]. Qed.

(** X8: on the gear list of a parsed build the empty-slot check finds
    nothing, whatever the gear section was: [parseGear] fills every slot,
    with a placeholder if need be, and the check only asks whether a slot
    is listed. *)
Theorem checkEmptySlots_never_fires (gearSection : value) (slots : list GearSlot) :
  parseGear gearSection = Ok slots -> checkEmptySlots slots = [].
Proof.
  intros H. apply parseGear_returns_fifteen in H as (_ & Hs & _).
  unfold checkEmptySlots, SLOT_PRIORITY. cbn [flat_map].
  rewrite !existsb_slot, Hs. reflexivity.
Qed.

(** A run of X8 on an absent gear section. *)
Lemma checkEmptySlots_never_fires_run :
  checkEmptySlots (map createEmptySlot GEAR_SLOTS) = [].
Proof.
  apply (checkEmptySlots_never_fires VUndef (map createEmptySlot GEAR_SLOTS)).
  reflexivity.
Defined.

(** Without such a list the check does fire: on no gear at all it asks for
    all ten slots it knows. *)
Example checkEmptySlots_on_nothing :
  map Suggest.description (checkEmptySlots [])
  = map (fun slot => "Empty gear slot: " ++ slot) SLOT_PRIORITY.
Proof. reflexivity. Qed.

End EmptySlots.

(** ** More on the cache *)

Section CacheInvariants.
Import Cache.

Variable V : Type.
Variable cfg : Config.

Lemma lookup_remove (k : string) (c : LRUCache V) : lookup k (remove k c) = None.
Proof.
  induction c as [|e c IH]; cbn [remove filter lookup]; [reflexivity|].
  destruct (key e =? k)%string eqn:E; cbn [negb]; [exact IH|].
  cbn [lookup]. rewrite E. exact IH.
Qed.

Lemma lookup_In (k : string) (c : LRUCache V) (e : Entry V) :
  lookup k c = Some e -> In e c /\ key e = k.
Proof.
  induction c as [|x c IH]; cbn [lookup]; [discriminate|].
  destruct (String.eqb_spec (key x) k) as [Hk|_].
  - intros [= <-]. split; [left; reflexivity | exact Hk].
  - intros H. destruct (IH H). split; [right|]; assumption.
Qed.

Lemma remove_keys (k : string) (c : LRUCache V) :
  ~ In k (map key (remove k c)).
Proof.
  intros H. apply in_map_iff in H as (e & He & Hin).
  apply filter_In in Hin as [_ Hne]. rewrite He, String.eqb_refl in Hne. discriminate.
Qed.

Lemma remove_NoDup (k : string) (c : LRUCache V) :
  NoDup (map key c) -> NoDup (map key (remove k c)).
Proof.
  induction c as [|e c IH]; cbn [remove filter map]; [auto|].
  intros H. inversion H as [|? ? Hn Hr]; subst.
  destruct (negb _); [|apply IH; assumption].
  cbn [map]. constructor; [|apply IH; assumption].
  intros Hin. apply Hn. apply in_map_iff in Hin as (x & Hx & Hin).
  apply filter_In in Hin as [Hin _]. apply in_map_iff. exists x. auto.
Qed.

Lemma remove_length (k : string) (c : LRUCache V) :
  (List.length (remove k c) <= List.length c)%nat.
Proof.
  induction c as [|e c IH]; cbn [remove filter List.length]; [lia|].
  destruct (negb _); cbn [List.length]; unfold remove in IH; lia.
Qed.

Lemma remove_length_found (k : string) (c : LRUCache V) (e : Entry V) :
  lookup k c = Some e -> (S (List.length (remove k c)) <= List.length c)%nat.
Proof.
  induction c as [|x c IH]; cbn [lookup remove filter List.length]; [discriminate|].
  destruct (key x =? k)%string; cbn [negb].
  - intros _. pose proof (remove_length k c). unfold remove in *. lia.
  - intros H. specialize (IH H). cbn [List.length]. unfold remove in *. lia.
Qed.

Lemma firstn_NoDup {A} (n : nat) (l : list A) : NoDup l -> NoDup (firstn n l).
Proof.
  revert n. induction l as [|x l IH]; intros [|n] H; cbn [firstn]; try constructor.
  - inversion H; subst. intros Hin. apply (In_nth_error) in Hin as [i Hi].
    assert (In x l); [|contradiction].
    apply nth_error_In with i. rewrite nth_error_firstn in Hi.
    destruct (i <? n)%nat; [exact Hi | discriminate].
  - inversion H; subst. apply IH. assumption.
Qed.

Lemma get_wellKept (now : Z) (k : string) (c : LRUCache V) :
  CacheOps.wellKept cfg c -> CacheOps.wellKept cfg (snd (get cfg now k c)).
Proof.
  intros [Hnd Hlen]. unfold get.
  destruct (lookup k c) as [e|] eqn:L; [|split; assumption].
  destruct (isStale cfg now e); cbn [snd].
  - split; [apply remove_NoDup, Hnd|].
    intros Hm. pose proof (remove_length k c). specialize (Hlen Hm). lia.
  - split.
    + cbn [map key]. constructor; [apply remove_keys | apply remove_NoDup, Hnd].
    + intros Hm. pose proof (remove_length_found k c e L). specialize (Hlen Hm).
      cbn [List.length]. lia.
Qed.

Lemma set_wellKept (now : Z) (k : string) (v : V) (c : LRUCache V) :
  CacheOps.wellKept cfg c -> CacheOps.wellKept cfg (set cfg now k v c).
Proof.
  intros [Hnd _]. unfold set, evict, CacheOps.wellKept.
  assert (H : NoDup (map key (mkEntry k v now :: remove k c))).
  { cbn [map key]. constructor; [apply remove_keys | apply remove_NoDup, Hnd]. }
  destruct (CACHE_MAX_SIZE cfg) as [|n]; [split; [exact H | congruence]|].
  split.
  - rewrite <- firstn_map. apply firstn_NoDup, H.
  - intros _. apply firstn_le_length.
Qed.

End CacheInvariants.

Section CacheAndHandler.
Import ParseTool.

Variables PassiveTree Stats : Type.
Variable E : Collaborators PassiveTree Stats.
Variable cfg : Cache.Config.

Local Abbreviation Build := (ParsedBuild PassiveTree Stats).
Local Abbreviation State := (ParseTool.State PassiveTree Stats).

Ltac step_binds H :=
  repeat match type of H with
         | bind ?m _ = Ok _ => destruct m; cbn [bind] in H; [|discriminate H]
         end.

Lemma assemble_parsedAt (date buildCode : string) (b : Build) :
  assemble E date buildCode = Ok b -> parsedAt b = date.
Proof.
  unfold assemble. intros H. step_binds H. injection H as <-. reflexivity.
Qed.

Lemma handler_wellKept (now : Z) (date x : string) (st : State) :
  CacheOps.wellKept cfg (buildCache st) ->
  CacheOps.wellKept cfg (buildCache (snd (handler E cfg now date x st))).
Proof.
  intros H. unfold handler, getCachedBuild, setCachedBuild.
  pose proof (get_wellKept _ cfg now (generateCacheKey E x) _ H) as Hg.
  destruct (Cache.get cfg now _ (buildCache st)) as [[cached|] c]; cbn [snd] in Hg.
  - exact Hg.
  - destruct (assemble E date x); cbn [snd buildCache]; [|exact Hg].
    apply set_wellKept, Hg.
Qed.

Lemma reachable_wellKept (st : State) :
  reachable E cfg st -> CacheOps.wellKept cfg (buildCache st).
Proof.
  induction 1 as [|st now date x _ IH].
  - split; [constructor | cbn; lia].
  - apply handler_wellKept, IH.
Qed.

(** X9: however many calls were made since start-up, the cache holds at
    most one entry per cache key and, when a maximum is configured, never
    more than [CACHE_MAX_SIZE] entries; the statistics report that size,
    the maximum, and a hit rate that is always 0. *)
Theorem cache_stays_bounded (st : State) :
  reachable E cfg st ->
  NoDup (map Cache.key (buildCache st))
  /\ CacheOps.hitRate (CacheOps.getCacheStats cfg (buildCache st)) = 0
  /\ CacheOps.size (CacheOps.getCacheStats cfg (buildCache st)) = List.length (buildCache st)
  /\ (CacheOps.maxSize (CacheOps.getCacheStats cfg (buildCache st)) <> 0%nat ->
      (CacheOps.size (CacheOps.getCacheStats cfg (buildCache st))
       <= CacheOps.maxSize (CacheOps.getCacheStats cfg (buildCache st)))%nat).
Proof.
  intros H. destruct (reachable_wellKept st H) as [Hnd Hlen].
  split; [exact Hnd|]. split; [reflexivity|]. split; [reflexivity|]. exact Hlen.
Qed.

Lemma get_miss_absent (now : Z) (k : string) (c c' : Cache.LRUCache Build) :
  Cache.get cfg now k c = (None, c') -> Cache.lookup k c' = None.
Proof.
  unfold Cache.get. destruct (Cache.lookup k c) as [e|] eqn:L.
  - destruct (Cache.isStale cfg now e); [|discriminate].
    intros [= <-]. apply lookup_remove.
  - intros [= <-]. exact L.
Qed.

Lemma handler_absent_runs (now : Z) (date x : string) (st : State) :
  Cache.lookup (generateCacheKey E x) (buildCache st) = None ->
  pipelineRuns (snd (handler E cfg now date x st)) = S (pipelineRuns st).
Proof.
  intros L. unfold handler, getCachedBuild, Cache.get. rewrite L.
  destruct (assemble E date x); reflexivity.
Qed.

(** X10: a failed parse is not cached: after a call on [x] that returned
    an error, the cache has no entry for [x], so an existence check says no
    and every later call on [x] goes through the whole pipeline again. *)
Theorem failure_not_cached
  (now : Z) (date x : string) (st st1 : State) (err : Errors.McpError)
  (now2 : Z) (date2 : string) :
  handler E cfg now date x st = (Failure err, st1) ->
  Cache.lookup (generateCacheKey E x) (buildCache st1) = None
  /\ fst (CacheOps.hasCachedBuild E cfg now2 x (buildCache st1)) = false
  /\ pipelineRuns (snd (handler E cfg now2 date2 x st1)) = S (pipelineRuns st1).
Proof.
  intros H.
  assert (L : Cache.lookup (generateCacheKey E x) (buildCache st1) = None).
  { unfold handler, getCachedBuild in H.
    destruct (Cache.get cfg now _ (buildCache st)) as [[cached|] c] eqn:G; [discriminate|].
    destruct (assemble E date x); [discriminate|].
    injection H as _ <-. cbn [buildCache]. exact (get_miss_absent _ _ _ _ G). }
  split; [exact L|]. split.
  - unfold CacheOps.hasCachedBuild, CacheOps.has. rewrite L. reflexivity.
  - apply handler_absent_runs, L.
Qed.

(** X11: once more than the time to live has passed since a successful
    call on [x], the next call on [x] does not use the cached build: it
    goes through the pipeline again, and a build it returns carries the
    time stamp of that call. *)
Theorem expired_entry_reparsed
  (now1 now2 : Z) (date1 date2 x : string) (st st1 : State) (b : Build) :
  handler E cfg now1 date1 x st = (Success b, st1) ->
  Cache.CACHE_TTL_MS cfg <> 0 ->
  now2 - now1 > Cache.CACHE_TTL_MS cfg ->
  pipelineRuns (snd (handler E cfg now2 date2 x st1)) = S (pipelineRuns st1)
  /\ (forall b2 st2, handler E cfg now2 date2 x st1 = (Success b2, st2) ->
        parsedAt b2 = date2).
Proof.
  intros H1 Httl Hlate.
  destruct (handler_success_cached _ _ _ _ _ _ _ _ _ _ H1) as [rest Hc].
  assert (G : getCachedBuild E cfg now2 x (buildCache st1)
              = (None, Cache.remove (generateCacheKey E x) (buildCache st1))).
  { unfold getCachedBuild, Cache.get. rewrite Hc, lookup_head.
    unfold Cache.isStale. cbn [Cache.start].
    destruct (Z.eqb_spec (Cache.CACHE_TTL_MS cfg) 0) as [H0|_]; [contradiction|].
    assert (Hgt : (now2 - now1 >? Cache.CACHE_TTL_MS cfg) = true)
      by (rewrite Z.gtb_ltb; apply Z.ltb_lt; lia).
    rewrite Hgt. reflexivity. }
  unfold handler. rewrite G. split.
  - destruct (assemble E date2 x); reflexivity.
  - intros b2 st2. destruct (assemble E date2 x) as [build|e] eqn:A; [|discriminate].
    intros [= <- _]. exact (assemble_parsedAt _ _ _ A).
Qed.

Lemma lookup_restartAge (k : string) (now : Z) (c : Cache.LRUCache Build) (e : Cache.Entry Build) :
  Cache.lookup k c = Some e ->
  Cache.lookup k (CacheOps.restartAge k now c) = Some (Cache.mkEntry k (Cache.val e) now).
Proof.
  induction c as [|x c IH]; cbn [Cache.lookup CacheOps.restartAge map]; [discriminate|].
  destruct (Cache.key x =? k)%string eqn:Ex.
  - intros [= <-]. cbn [Cache.lookup Cache.key]. now rewrite String.eqb_refl.
  - intros H. cbn [Cache.lookup]. rewrite Ex. apply IH, H.
Qed.

(** X12: the existence check answers yes exactly when a lookup at the same
    moment would return a build, and a yes restarts the entry's age: a
    lookup within the time to live after the check still finds the build. *)
Theorem has_agrees_and_refreshes (now now3 : Z) (x : string) (c : Cache.LRUCache Build) :
  (fst (CacheOps.hasCachedBuild E cfg now x c) = true
   <-> exists b, fst (getCachedBuild E cfg now x c) = Some b)
  /\ (fst (CacheOps.hasCachedBuild E cfg now x c) = true ->
      ttlNotElapsed cfg now now3 ->
      exists b, fst (getCachedBuild E cfg now x c) = Some b
                /\ fst (getCachedBuild E cfg now3 x (snd (CacheOps.hasCachedBuild E cfg now x c)))
                   = Some b).
Proof.
  unfold CacheOps.hasCachedBuild, CacheOps.has, getCachedBuild, Cache.get.
  destruct (Cache.lookup (generateCacheKey E x) c) as [e|] eqn:L.
  - destruct (Cache.isStale cfg now e) eqn:S; cbn [fst snd].
    + split; [split; [discriminate | intros [b Hb]; discriminate] | discriminate].
    + split; [split; [intros _; eexists; reflexivity | reflexivity]|].
      intros _ Httl. exists (Cache.val e). split; [reflexivity|].
      rewrite (lookup_restartAge _ now _ _ L).
      rewrite fresh_entry_not_stale; [reflexivity | exact Httl].
  - cbn [fst]. split; [split; [discriminate | intros [b Hb]; discriminate] | discriminate].
Qed.

(** X13: a stored build is returned by a lookup with the same build code
    made before the time to live has run out, whatever the cache held
    before and whatever its size limit. *)
Theorem store_then_lookup (now1 now2 : Z) (x : string) (b : Build)
  (c : Cache.LRUCache Build) :
  ttlNotElapsed cfg now1 now2 ->
  fst (getCachedBuild E cfg now2 x (setCachedBuild E cfg now1 x b c)) = Some b.
Proof.
  intros Httl. unfold getCachedBuild, setCachedBuild.
  destruct (set_front _ cfg now1 (generateCacheKey E x) b c) as [rest ->].
  rewrite (get_front _ cfg now1 now2 _ b rest Httl). reflexivity.
Qed.

End CacheAndHandler.

Section CacheRuns.
Import ParseTool.

(** A run of X9 after one call. *)
Lemma cache_stays_bounded_run :
  let st := snd (handler (stubCollaborators sampleDocument) Cache.defaultConfig 0
                   "2026-01-15T10:00:00.000Z" "QUJD" initialState) in
  NoDup (map Cache.key (buildCache st))
  /\ CacheOps.hitRate (CacheOps.getCacheStats Cache.defaultConfig (buildCache st)) = 0
  /\ CacheOps.size (CacheOps.getCacheStats Cache.defaultConfig (buildCache st))
     = List.length (buildCache st)
  /\ (CacheOps.maxSize (CacheOps.getCacheStats Cache.defaultConfig (buildCache st)) <> 0%nat ->
      (CacheOps.size (CacheOps.getCacheStats Cache.defaultConfig (buildCache st))
       <= CacheOps.maxSize (CacheOps.getCacheStats Cache.defaultConfig (buildCache st)))%nat).
Proof.
  apply (cache_stays_bounded unit unit (stubCollaborators sampleDocument) Cache.defaultConfig).
  apply reach_call, reach_init.
Defined.

(** A run of X10: the document has no root, the call fails. *)
Lemma failure_not_cached_run :
  let r := handler (stubCollaborators VUndef) Cache.defaultConfig 0
             "2026-01-15T10:00:00.000Z" "QUJD" initialState in
  Cache.lookup "QUJD" (buildCache (snd r)) = None
  /\ fst (CacheOps.hasCachedBuild (stubCollaborators VUndef) Cache.defaultConfig 5 "QUJD"
            (buildCache (snd r))) = false
  /\ pipelineRuns (snd (handler (stubCollaborators VUndef) Cache.defaultConfig 5
                          "2026-01-15T10:00:00.005Z" "QUJD" (snd r)))
     = S (pipelineRuns (snd r)).
Proof.
  cbv zeta.
  destruct (handler (stubCollaborators VUndef) Cache.defaultConfig 0
              "2026-01-15T10:00:00.000Z" "QUJD" initialState) as [r st1] eqn:H.
  assert (Hr : exists err, r = Failure err).
  { vm_compute in H. injection H as <- _. eexists. reflexivity. }
  destruct Hr as [err ->]. cbn [snd].
  exact (failure_not_cached unit unit (stubCollaborators VUndef) Cache.defaultConfig
           0 "2026-01-15T10:00:00.000Z" "QUJD" initialState st1 err
           5 "2026-01-15T10:00:00.005Z" H).
Defined.

(** A run of X11: the second call comes two hours after the first. *)
Lemma expired_entry_reparsed_run :
  let E := stubCollaborators sampleDocument in
  let st1 := snd (handler E Cache.defaultConfig 0 "2026-01-15T10:00:00.000Z" "QUJD" initialState) in
  pipelineRuns (snd (handler E Cache.defaultConfig 7200000 "2026-01-15T12:00:00.000Z" "QUJD" st1))
  = S (pipelineRuns st1)
  /\ (forall b2 st2,
        handler E Cache.defaultConfig 7200000 "2026-01-15T12:00:00.000Z" "QUJD" st1
        = (Success b2, st2) ->
        parsedAt b2 = "2026-01-15T12:00:00.000Z").
Proof.
  cbv zeta.
  destruct (handler (stubCollaborators sampleDocument) Cache.defaultConfig 0
              "2026-01-15T10:00:00.000Z" "QUJD" initialState) as [r st1] eqn:H.
  assert (Hr : exists b, r = Success b).
  { vm_compute in H. injection H as <- _. eexists. reflexivity. }
  destruct Hr as [b ->]. cbn [snd].
  apply (expired_entry_reparsed unit unit (stubCollaborators sampleDocument) Cache.defaultConfig
           0 7200000 "2026-01-15T10:00:00.000Z" "2026-01-15T12:00:00.000Z" "QUJD"
           initialState st1 b H).
  - vm_compute. discriminate.
  - vm_compute. reflexivity.
Defined.

(** A run of X13 on an empty cache. *)
Lemma store_then_lookup_run :
  exists b,
    fst (handler (stubCollaborators sampleDocument) Cache.defaultConfig 0
           "2026-01-15T10:00:00.000Z" "QUJD" initialState) = Success b
    /\ fst (getCachedBuild (stubCollaborators sampleDocument) Cache.defaultConfig 1000 "QUJD"
              (setCachedBuild (stubCollaborators sampleDocument) Cache.defaultConfig 0 "QUJD" b []))
       = Some b.
Proof.
  eexists. split; [vm_compute; reflexivity|].
  apply (store_then_lookup unit unit (stubCollaborators sampleDocument) Cache.defaultConfig
           0 1000 "QUJD").
  right. vm_compute. discriminate.
Defined.

End CacheRuns.

(** ** The decoder *)

Section DecoderFacts.
Import ParseTool.

Variables PassiveTree Stats : Type.
Variable E : Collaborators PassiveTree Stats.

Lemma trimEnd_idempotent (s : string) : trimEnd (trimEnd s) = trimEnd s.
Proof.
  induction s as [|c r IH]; cbn [trimEnd]; [reflexivity|].
  destruct (trimEnd r) as [|c' r'] eqn:T.
  - destruct (is_space c) eqn:S; cbn [trimEnd]; [reflexivity|]. now rewrite S.
  - change (trimEnd (String c (String c' r')))
      with (match trimEnd (String c' r') with
            | EmptyString => if is_space c then EmptyString else String c EmptyString
            | String a b => String c (String a b)
            end).
    rewrite IH. reflexivity.
Qed.

Lemma skip_spaces_head (s : string) :
  skip_spaces s = "" \/ exists c r, skip_spaces s = String c r /\ is_space c = false.
Proof.
  induction s as [|c r IH]; cbn [skip_spaces]; [left; reflexivity|].
  destruct (is_space c) eqn:S; [exact IH|]. right. exists c, r. auto.
Qed.

Lemma skip_spaces_trimEnd (s : string) :
  skip_spaces (trimEnd (skip_spaces s)) = trimEnd (skip_spaces s).
Proof.
  destruct (skip_spaces_head s) as [->|(c & r & -> & S)]; [reflexivity|].
  cbn [trimEnd]. destruct (trimEnd r); rewrite ?S; cbn [skip_spaces]; now rewrite S.
Qed.

Lemma trim_idempotent (s : string) : trim (trim s) = trim s.
Proof. unfold trim. rewrite skip_spaces_trimEnd. apply trimEnd_idempotent. Qed.

Lemma decodeBase64_cases (input : string) :
  match decodeBase64 E input with
  | Ok decoded =>
      Base64.isValidBase64 input = true
      /\ decoded = bufferFromBase64 _ _ E (trim input)
      /\ decoded <> []
  | Throw e =>
      (exists msg, e = PoBParsingError INVALID_BASE64 msg None)
      /\ (Base64.isValidBase64 input = true -> bufferFromBase64 _ _ E (trim input) = [])
  end.
Proof.
  unfold decodeBase64, Base64.isValidBase64.
  destruct (String.length (trim input) =? 0)%nat.
  - split; [eexists; reflexivity | discriminate].
  - destruct (all_chars is_base64_char (trim input)); cbn [negb].
    + destruct (bufferFromBase64 _ _ E (trim input)) as [|x l] eqn:B; cbn [List.length Nat.eqb].
      * split; [eexists; reflexivity | reflexivity].
      * split; [reflexivity|]. split; [reflexivity | discriminate].
    + split; [eexists; reflexivity | discriminate].
Qed.

(** X14: [decodeBase64] and [isValidBase64] agree: a decode succeeds only
    on an input the check accepts, with a buffer that is not empty, and
    every failure is an INVALID_BASE64 error without details; an input the
    check refuses always fails. *)
Theorem decodeBase64_outcomes (input : string) :
  match decodeBase64 E input with
  | Ok decoded =>
      Base64.isValidBase64 input = true
      /\ decoded = bufferFromBase64 _ _ E (trim input)
      /\ decoded <> []
  | Throw e =>
      (exists msg, e = PoBParsingError INVALID_BASE64 msg None)
      /\ (Base64.isValidBase64 input = true -> bufferFromBase64 _ _ E (trim input) = [])
  end.
Proof. exact (decodeBase64_cases input). Qed.

(** X15: white space around the build code does not matter to the
    decoder: an input and its trimmed form decode to the same result. *)
Theorem decodeBase64_ignores_surrounding_space (input : string) :
  decodeBase64 E (trim input) = decodeBase64 E input.
Proof. unfold decodeBase64. rewrite trim_idempotent. reflexivity. Qed.

Lemma all_chars_app (p : ascii -> bool) (a b : string) :
  all_chars p (a ++ b) = (all_chars p a && all_chars p b)%bool.
Proof.
  induction a as [|c a IH]; cbn [append all_chars]; [reflexivity|].
  rewrite IH. apply andb_assoc.
Qed.

(** X16: white space or any other character outside A-Z, a-z, 0-9, +, /
    and = inside the build code (after trimming) makes the decoder fail
    with INVALID_BASE64; the URL-safe alphabet (- and _) is refused. *)
Theorem decodeBase64_rejects_foreign_character (input before after : string) (c : ascii) :
  trim input = before ++ String c after ->
  is_base64_char c = false ->
  decodeBase64 E input
  = Throw (PoBParsingError INVALID_BASE64 "Input contains invalid base64 characters" None).
Proof.
  intros Ht Hc. unfold decodeBase64. rewrite Ht.
  assert (Hlen : (String.length (before ++ String c after) =? 0)%nat = false).
  { destruct before; reflexivity. }
  rewrite Hlen, all_chars_app. cbn [all_chars]. rewrite Hc.
  rewrite andb_false_r. reflexivity.
Qed.

End DecoderFacts.

(** A run of X16: a build code in the URL-safe alphabet, with a line
    break after it. *)
Lemma decodeBase64_rejects_foreign_character_run :
  ParseTool.decodeBase64 (ParseTool.stubCollaborators VUndef)
    ("eNrt_VcFu" ++ String (ascii_of_nat 10) "")
  = Throw (PoBParsingError INVALID_BASE64 "Input contains invalid base64 characters" None).
Proof.
  apply (decodeBase64_rejects_foreign_character unit unit (ParseTool.stubCollaborators VUndef)
           ("eNrt_VcFu" ++ String (ascii_of_nat 10) "") "eNrt" "VcFu" "_"); reflexivity.
Defined.

Section DecompressorFacts.
Import Decompress.

Variables (inflateSync inflateRawSync : Buffer -> string + Buffer) (utf8 : Buffer -> string).

Lemma decompressZlib_throws (compressed : Buffer) (e : exn) :
  decompressZlib inflateSync utf8 compressed = Throw e ->
  exists m d,
    e = PoBParsingError DECOMPRESSION_ERROR m d
    /\ In m ["Compressed buffer is empty"; "Decompressed buffer is empty";
             "Failed to decompress zlib data"].
Proof.
  unfold decompressZlib.
  destruct (List.length compressed =? 0)%nat.
  - intros [= <-]. eexists. eexists. split; [reflexivity|]. cbn; auto.
  - destruct (inflateSync compressed) as [msg|out].
    + intros [= <-]. eexists. eexists. split; [reflexivity|]. cbn; auto.
    + destruct (List.length out =? 0)%nat; [|discriminate].
      intros [= <-]. eexists. eexists. split; [reflexivity|]. cbn; auto.
Qed.

Lemma decompressWithFallback_cases (compressed : Buffer) :
  match decompressWithFallback inflateSync inflateRawSync utf8 compressed with
  | Ok _ => True
  | Throw e =>
      exists m,
        e = PoBParsingError DECOMPRESSION_ERROR
              "Failed to decompress with both zlib and raw deflate" (Some ("zlib: " ++ m))
        /\ In m ["Compressed buffer is empty"; "Decompressed buffer is empty";
                 "Failed to decompress zlib data"]
  end.
Proof.
  unfold decompressWithFallback.
  destruct (decompressZlib inflateSync utf8 compressed) as [s|e] eqn:Z; [exact I|].
  destruct (decompressZlib_throws _ _ Z) as (m & d & -> & Hm).
  destruct (inflateRawSync compressed) as [msg|out].
  - exists m. split; [reflexivity | exact Hm].
  - destruct (List.length out =? 0)%nat; [|exact I].
    exists m. split; [reflexivity | exact Hm].
Qed.

(** X17: whatever went wrong, a failure of [decompressWithFallback] is one
    and the same DECOMPRESSION_ERROR, "Failed to decompress with both zlib
    and raw deflate"; its details are "zlib: " followed by one of the three
    fixed messages of [decompressZlib], and never say why the raw inflate
    failed. *)
Theorem decompressWithFallback_failure_shape (compressed : Buffer) :
  match decompressWithFallback inflateSync inflateRawSync utf8 compressed with
  | Ok _ => True
  | Throw e =>
      exists m,
        e = PoBParsingError DECOMPRESSION_ERROR
              "Failed to decompress with both zlib and raw deflate" (Some ("zlib: " ++ m))
        /\ In m ["Compressed buffer is empty"; "Decompressed buffer is empty";
                 "Failed to decompress zlib data"]
  end.
Proof. exact (decompressWithFallback_cases compressed). Qed.

(** X18: the standard framing wins and the raw framing is the fallback:
    when zlib inflates a non-empty buffer to a non-empty output, the result
    is its text and the raw inflate has no say; when zlib throws and the
    raw inflate yields a non-empty output, the result is the text of that
    output. *)
Theorem decompressWithFallback_order (compressed out : Buffer) :
  compressed <> [] -> out <> [] ->
  (inflateSync compressed = inr out ->
   decompressWithFallback inflateSync inflateRawSync utf8 compressed = Ok (utf8 out))
  /\ ((exists msg, inflateSync compressed = inl msg) ->
      inflateRawSync compressed = inr out ->
      decompressWithFallback inflateSync inflateRawSync utf8 compressed = Ok (utf8 out)).
Proof.
  intros Hc Ho.
  assert (Lc : (List.length compressed =? 0)%nat = false) by (destruct compressed; [now destruct Hc | reflexivity]).
  assert (Lo : (List.length out =? 0)%nat = false) by (destruct out; [now destruct Ho | reflexivity]).
  unfold decompressWithFallback, decompressZlib. rewrite Lc. split.
  - intros ->. rewrite Lo. reflexivity.
  - intros [msg ->] ->. rewrite Lo. reflexivity.
Qed.

End DecompressorFacts.

(** A run of X18: zlib refuses the buffer, the raw inflate reads it. *)
Lemma decompressWithFallback_order_run :
  Decompress.decompressWithFallback
    (fun _ => inl "incorrect header check") (fun _ => inr [Byte.x3c; Byte.x61; Byte.x3e])
    (fun _ => "<a>") [Byte.x01]
  = Ok "<a>".
Proof.
  apply (proj2 (decompressWithFallback_order
                  (fun _ => inl "incorrect header check")
                  (fun _ => inr [Byte.x3c; Byte.x61; Byte.x3e])
                  (fun _ => "<a>") [Byte.x01] [Byte.x3c; Byte.x61; Byte.x3e]
                  ltac:(discriminate) ltac:(discriminate))).
  - eexists. reflexivity.
  - reflexivity.
Defined.

Section ReaderFacts.
Import ParseTool.

Variables PassiveTree Stats : Type.
Variable E : Collaborators PassiveTree Stats.

(** X19: [parsePoBXML] lets no other exception out than a PoBParsingError
    with code INVALID_BASE64, DECOMPRESSION_ERROR or INVALID_XML, and what
    it returns is a truthy value, so that reading a section off it never
    throws. *)
Theorem parsePoBXML_outcomes (buildCode : string) :
  match parsePoBXML E buildCode with
  | Ok root => truthy root = true /\ forall k, get root k = Ok (get_opt root k)
  | Throw e =>
      exists code msg details,
        e = PoBParsingError code msg details
        /\ (code = INVALID_BASE64 \/ code = DECOMPRESSION_ERROR \/ code = INVALID_XML)
  end.
Proof.
  unfold parsePoBXML.
  pose proof (decodeBase64_cases PassiveTree Stats E buildCode) as Hd.
  destruct (decodeBase64 E buildCode) as [buf|e]; cbn [bind].
  - pose proof (decompressWithFallback_cases
                  (inflateSync _ _ E) (inflateRawSync _ _ E) (utf8 _ _ E) buf) as Hz.
    destruct (Decompress.decompressWithFallback _ _ _ buf) as [xml|e]; cbn [bind].
    + destruct (xmlParse _ _ E xml) as [msg|parsed].
      * eexists. eexists. eexists. split; [reflexivity | auto].
      * destruct (get parsed "PathOfBuilding") as [root|e].
        -- destruct (truthy root) eqn:T; cbn [negb].
           ++ split; [exact T|]. intros k. now apply get_of_truthy.
           ++ eexists. eexists. eexists. split; [reflexivity | auto].
        -- eexists. eexists. eexists. split; [reflexivity | auto].
    + destruct Hz as (m & -> & _). eexists. eexists. eexists. split; [reflexivity | auto].
  - destruct Hd as [[msg ->] _]. eexists. eexists. eexists. split; [reflexivity | auto].
Qed.

End ReaderFacts.

Section VersionGateMore.
Import Xml.

(** X20: the gate compares strings only.  A version that the XML reader
    has turned into a number other than 0, or into [true], is never
    rejected, however small it is. *)
Theorem numeric_version_passes (fields : list (string * value)) :
  (forall z, z <> 0 -> assoc "version" fields = VNum (Int z) ->
     validatePoBVersion (VObj fields) = Ok tt)
  /\ (assoc "version" fields = VBool true -> validatePoBVersion (VObj fields) = Ok tt)
  /\ validatePoBVersion (VObj [("version", VNum (Int 1))]) = Ok tt.
Proof.
  unfold validatePoBVersion. cbn [get bind]. split; [|split; [|reflexivity]].
  - intros z Hz ->. cbn [truthy lt_string].
    destruct (Z.eqb_spec z 0) as [H0|_]; [contradiction | reflexivity].
  - intros ->. reflexivity.
Qed.

End VersionGateMore.

(** ** More on the extractors *)

Section CharacterMore.
Import CharacterParser.

Lemma or_else_truthy (a b : value) : truthy b = true -> truthy (a ||| b) = true.
Proof. unfold or_else. intros H. destruct (truthy a) eqn:T; assumption. Qed.


End CharacterMore.

Section SkillsMore.
Import SkillParser Shapes.

Lemma get_Ok_opt (v : value) (k : string) (x : value) : get v k = Ok x -> get_opt v k = x.
Proof. destruct v; cbn; intros H; try discriminate; injection H as <-; reflexivity. Qed.

Lemma filterM_isSupport (l kept : list value) :
  filterM isSupport l = Ok kept -> kept = filter isSupportTyped l.
Proof.
  revert kept. induction l as [|g l IH]; intros kept; cbn [filterM filter].
  - intros [= <-]. reflexivity.
  - unfold isSupport at 1. destruct (get g "type") as [ty|e] eqn:G; cbn [bind]; [|discriminate].
    destruct (filterM isSupport l) as [ys|e]; cbn [bind]; [|discriminate].
    intros [= <-]. unfold isSupportTyped at 1. rewrite (get_Ok_opt _ _ _ G).
    now rewrite (IH ys eq_refl).
Qed.

(** X22: for a skill whose [gems.Gem] is an array, the link count is the
    number of all its entries plus one, while the supports are the entries
    typed "Support", in order; so the link count is the number of supports
    plus one exactly when every entry is a support. *)
Theorem linkCount_of_gem_array (skill : value) (index : Z) (s : SkillSetup) (l : list value) :
  parseSkill skill index = Ok s ->
  gemArray skill = Some l ->
  linkCount s = Z.of_nat (List.length l) + 1
  /\ List.length (supports s) = List.length (filter isSupportTyped l)
  /\ (linkCount s = Z.of_nat (List.length (supports s)) + 1
      <-> forallb isSupportTyped l = true).
Proof.
  unfold parseSkill, gemArray. intros P G.
  destruct (get skill "gem") as [g|e]; cbn [bind] in P; [|discriminate].
  destruct (get skill "name") as [n|e]; cbn [bind] in P; [|discriminate].
  destruct (get skill "level") as [lv|e]; cbn [bind] in P; [|discriminate].
  destruct (get skill "quality") as [q|e]; cbn [bind] in P; [|discriminate].
  unfold parseSupportGems, calculateLinkCount in P.
  destruct (get skill "gems") as [gems|e] eqn:Gg; cbn [bind] in P; [|discriminate].
  rewrite (get_Ok_opt _ _ _ Gg) in G.
  destruct (get_opt gems "Gem") as [| | | | |arr|] eqn:Go; try discriminate.
  injection G as ->.
  assert (Tg : truthy gems = true).
  { destruct gems; cbn in Go; try discriminate; reflexivity. }
  rewrite Tg in P. cbn [negb] in P.
  rewrite (get_of_truthy _ "Gem" Tg), Go in P. cbn [bind truthy] in P.
  destruct (filterM isSupport l) as [kept|e] eqn:F; cbn [bind] in P; [|discriminate].
  destruct (mapM toSupportGem kept) as [sup|e] eqn:M; cbn [bind] in P; [|discriminate].
  destruct (get skill "mainActive"); cbn [bind] in P; [|discriminate].
  injection P as <-. cbn [linkCount supports].
  apply mapM_length in M. apply filterM_isSupport in F. subst kept.
  split; [reflexivity|]. split; [exact M|].
  rewrite M. clear. induction l as [|x l IH]; cbn [filter forallb List.length].
  - split; reflexivity.
  - pose proof (filter_length_le isSupportTyped l) as Hle.
    destruct (isSupportTyped x); cbn [List.length andb].
    + split; intros H.
      * apply IH. lia.
      * apply IH in H. lia.
    + split; [lia | discriminate].
Qed.

(** X23: when [Skill] is an array, each entry that is read without an
    exception gives one setup, in order, with ids skill-1, skill-2, ...;
    and each setup's link count is at least its number of supports plus
    one. *)
Theorem parseSkills_of_array (fields : list (string * value)) (skillArray : list value)
  (setups : list SkillSetup) :
  assoc "Skill" fields = VArr skillArray ->
  parseSkills (VObj fields) = Ok setups ->
  List.length setups = List.length skillArray
  /\ (forall (i : nat) (s : SkillSetup),
        nth_error setups i = Some s -> id s = "skill-" ++ decimal (Z.of_nat i + 1))
  /\ Forall (fun s => Z.of_nat (List.length (supports s)) + 1 <= linkCount s) setups.
Proof.
  intros H P. destruct (parseSkills_array fields skillArray setups H P) as [Hlen Hid].
  split; [exact Hlen|]. split; [exact Hid|].
  unfold parseSkills in P. cbn [truthy negb get bind] in P. rewrite H in P.
  clear Hlen Hid H. revert setups P. generalize 0 as index.
  induction skillArray as [|sk l IH]; intros index setups; cbn [forEachIndexed].
  - intros [= <-]. constructor.
  - destruct (parseSkill sk index) as [s0|e] eqn:P0; cbn [bind]; [|discriminate].
    destruct (forEachIndexed l (index + 1)) as [rest|e] eqn:R; cbn [bind]; [|discriminate].
    intros [= <-]. constructor.
    + exact (parseSkill_linkCount_lower_bound _ _ _ P0).
    + exact (IH _ _ R).
Qed.

End SkillsMore.

(** A run of X22: one active gem and one support. *)
Lemma linkCount_of_gem_array_run :
  let skill :=
    VObj [("name", VStr "Fireball");
          ("gems", VObj [("Gem", VArr [VObj [("type", VStr "Active")];
                                       VObj [("type", VStr "Support"); ("name", VStr "Spell Echo")]])])] in
  exists s,
    SkillParser.parseSkill skill 0 = Ok s
    /\ SkillParser.linkCount s = 3
    /\ List.length (SkillParser.supports s) = 1%nat.
Proof.
  cbv zeta. eexists. split; [reflexivity|].
  destruct (linkCount_of_gem_array
              (VObj [("name", VStr "Fireball");
                     ("gems", VObj [("Gem", VArr [VObj [("type", VStr "Active")];
                                                  VObj [("type", VStr "Support");
                                                        ("name", VStr "Spell Echo")]])])])
              0 _
              [VObj [("type", VStr "Active")];
               VObj [("type", VStr "Support"); ("name", VStr "Spell Echo")]]
              eq_refl eq_refl) as (H1 & H2 & _).
  split; [exact H1 | exact H2].
Defined.

(** A run of X23: two skills. *)
Lemma parseSkills_of_array_run :
  exists setups,
    SkillParser.parseSkills
      (VObj [("Skill", VArr [VObj [("name", VStr "Fireball")]; VObj [("name", VStr "Frostbolt")]])])
    = Ok setups
    /\ List.length setups = 2%nat
    /\ map SkillParser.id setups = ["skill-1"; "skill-2"].
Proof.
  eexists. split; [reflexivity|].
  destruct (parseSkills_of_array
              [("Skill", VArr [VObj [("name", VStr "Fireball")]; VObj [("name", VStr "Frostbolt")]])]
              [VObj [("name", VStr "Fireball")]; VObj [("name", VStr "Frostbolt")]]
              _ eq_refl eq_refl) as (H1 & _ & _).
  split; [exact H1 | reflexivity].
Defined.

Section GearMore.
Import GearParser Shapes.

Lemma parseGearSlot_inferred (item : value) (g : GearSlot) :
  parseGearSlot item = Ok (Some g) -> namesSlot item = false -> slot g = VStr "Flask1".
Proof.
  unfold parseGearSlot, namesSlot. intros P Hs.
  destruct (truthy item) eqn:T; cbn [negb] in P; [|discriminate].
  rewrite (get_of_truthy _ "$" T) in P. cbn [bind] in P.
  destruct (truthy (get_opt item "$")) eqn:TN; cbn [negb] in P; [|discriminate].
  unfold determineSlotType in P.
  rewrite (get_of_truthy _ "slot" T), (get_of_truthy _ "$" T) in P. cbn [bind] in P.
  rewrite Hs, TN in P. cbn [negb] in P.
  destruct (get_opt item "$") as [| | | |nm| |]; cbn [bind] in P; try discriminate.
  destruct (includes (toLowerCase nm) "flask"); cbn [bind] in P; [|discriminate].
  repeat match type of P with
         | bind ?m _ = Ok _ => destruct m; cbn [bind] in P; [|discriminate P]
         end.
  injection P as <-. reflexivity.
Qed.

(** X24: whatever the gear section is, a list that [parseGear] returns has
    the fifteen slots in the fixed order, without duplicates, each the
    [Empty] placeholder or an item parsed from the section. *)
Theorem parseGear_result_shape (gearSection : value) (slots : list GearSlot) :
  parseGear gearSection = Ok slots -> fifteenSlots gearSection slots.
Proof. exact (parseGear_returns_fifteen gearSection slots). Qed.

(** X25: slots are never inferred beyond the first flask: when no item of
    the section names its slot, every returned entry other than Flask1 is
    the [Empty] placeholder, so at most one item of the section is kept. *)
Theorem unnamed_slots_stay_empty (gearSection : value) (slots : list GearSlot) :
  parseGear gearSection = Ok slots ->
  forallb (fun item => negb (namesSlot item)) (sectionItems gearSection) = true ->
  forall g, In g slots -> slot g <> VStr "Flask1" ->
    exists name, In name GEAR_SLOTS /\ g = createEmptySlot name.
Proof.
  intros P Hn g Hg Hf.
  apply parseGear_returns_fifteen in P as (_ & _ & _ & Hall).
  rewrite Forall_forall in Hall. destruct (Hall g Hg) as [H|(item & Hi & Hp)]; [exact H|].
  exfalso. apply Hf. apply (parseGearSlot_inferred item g Hp).
  rewrite forallb_forall in Hn. specialize (Hn item Hi).
  now apply negb_true_iff in Hn.
Qed.

End GearMore.

(** A run of X24. *)
Lemma parseGear_result_shape_run :
  GearParser.fifteenSlots (VObj [("Item", VObj [("$", VStr "Goldrim"); ("slot", VStr "Helmet")])])
    (map (GearParser.fillSlot
            [GearParser.mkGearSlot (VStr "Helmet") (VStr "Goldrim") (VStr "") (VStr "") []
               VNull false []])
         GearParser.GEAR_SLOTS).
Proof.
  apply (parseGear_result_shape
           (VObj [("Item", VObj [("$", VStr "Goldrim"); ("slot", VStr "Helmet")])])).
  reflexivity.
Defined.

(** A run of X25: two flasks and a ring, none naming its slot; the second
    flask and the ring are lost. *)
Lemma unnamed_slots_stay_empty_run :
  let section :=
    VObj [("Item", VArr [VObj [("$", VStr "Divine Life Flask")];
                         VObj [("$", VStr "Quicksilver Flask")];
                         VObj [("$", VStr "Coral Ring")]])] in
  exists slots,
    GearParser.parseGear section = Ok slots
    /\ forall g, In g slots -> GearParser.slot g <> VStr "Flask1" ->
         exists name, In name GearParser.GEAR_SLOTS /\ g = GearParser.createEmptySlot name.
Proof.
  cbv zeta. eexists. split; [reflexivity|].
  apply (unnamed_slots_stay_empty
           (VObj [("Item", VArr [VObj [("$", VStr "Divine Life Flask")];
                                 VObj [("$", VStr "Quicksilver Flask")];
                                 VObj [("$", VStr "Coral Ring")]])])); reflexivity.
Defined.

(** ** The passive tree extractor *)

Section PassivesFacts.
Import PassiveParser.

Lemma keystoneEntry_id (k : value) (key : value) (ks : Keystone) :
  keystoneEntry k = Ok (key, ks) -> id ks = key.
Proof.
  unfold keystoneEntry.
  destruct (get k "id"); cbn [bind]; [|discriminate].
  destruct (get k "name"); cbn [bind]; [|discriminate].
  destruct (get k "effects"); cbn [bind]; [|discriminate].
  destruct (effectText _); cbn [bind]; [|discriminate].
  intros [= <- <-]. reflexivity.
Qed.

Lemma mapM_keystoneEntry_ids (data : list value) (entries : list (value * Keystone)) :
  mapM keystoneEntry data = Ok entries ->
  Forall (fun e => id (snd e) = fst e) entries.
Proof.
  revert entries. induction data as [|k data IH]; intros entries; cbn [mapM].
  - intros [= <-]. constructor.
  - destruct (keystoneEntry k) as [[key ks]|e] eqn:K; cbn [bind]; [|discriminate].
    destruct (mapM keystoneEntry data) as [rest|e]; cbn [bind]; [|discriminate].
    intros [= <-]. constructor; [exact (keystoneEntry_id _ _ _ K) | exact (IH _ eq_refl)].
Qed.

Lemma mapGet_found (key : value) (entries : list (value * Keystone)) (ks : Keystone) :
  mapGet key entries = Some ks ->
  exists k, In (k, ks) entries /\ sameValueZero k key = true.
Proof.
  induction entries as [|[k v] rest IH]; cbn [mapGet]; [discriminate|].
  destruct (mapGet key rest) as [later|].
  - intros [= <-]. destruct (IH eq_refl) as (k' & Hin & Hs). exists k'. split; [right|]; assumption.
  - destruct (sameValueZero k key) eqn:S; [|discriminate].
    intros [= <-]. exists k. split; [left; reflexivity | exact S].
Qed.

Lemma lookupAll_origin (entries : list (value * Keystone)) (nodeIds : list value) :
  (List.length (lookupAll entries nodeIds) <= List.length nodeIds)%nat
  /\ forall ks, In ks (lookupAll entries nodeIds) ->
       exists nodeId k, In nodeId nodeIds /\ In (k, ks) entries
                        /\ sameValueZero k nodeId = true.
Proof.
  induction nodeIds as [|n l [IHl IHo]]; cbn [lookupAll List.length].
  - split; [lia | intros ks []].
  - destruct (mapGet n entries) as [ks0|] eqn:G; cbn [List.length].
    + split; [lia|]. intros ks [<-|H].
      * destruct (mapGet_found _ _ _ G) as (k & Hin & Hs).
        exists n, k. split; [left; reflexivity | auto].
      * destruct (IHo ks H) as (n' & k & Hn & He & Hs).
        exists n', k. split; [right; exact Hn | auto].
    + split; [lia|]. intros ks H.
      destruct (IHo ks H) as (n' & k & Hn & He & Hs).
      exists n', k. split; [right; exact Hn | auto].
Qed.

(** X26: a tree that [parsePassives] returns counts exactly its allocated
    nodes, never lists a notable, and lists as keystones only entries of
    the keystone data whose id equals an allocated node id, at most one
    per allocated node; an absent section gives the empty tree with
    version "unknown". *)
Theorem parsePassives_shape (file : option (list value)) (keystonesData : list value)
  (treeSection : value) (t : PassiveTree) :
  fst (parsePassives file keystonesData treeSection) = Ok t ->
  totalPoints t = Z.of_nat (List.length (nodes t))
  /\ notables t = []
  /\ (List.length (keystones t) <= List.length (nodes t))%nat
  /\ (forall ks, In ks (keystones t) ->
        exists nodeId, In nodeId (nodes t) /\ sameValueZero (id ks) nodeId = true)
  /\ (truthy treeSection = false -> t = emptyTree).
Proof.
  unfold parsePassives. cbn [fst].
  destruct (truthy treeSection) eqn:T; cbn [negb].
  - destruct (extractNodeIds treeSection) as [ns|e]; cbn [bind]; [|discriminate].
    destruct (get treeSection "version") as [v|e]; cbn [bind]; [|discriminate].
    unfold identifySpecialNodes.
    destruct (mapM keystoneEntry _) as [entries|e] eqn:M; cbn [bind]; [|discriminate].
    intros [= <-]. cbn [totalPoints nodes notables keystones fst snd].
    destruct (lookupAll_origin entries ns) as [Hlen Horig].
    split; [reflexivity|]. split; [reflexivity|]. split; [exact Hlen|]. split; [|discriminate].
    intros ks Hks. destruct (Horig ks Hks) as (n & k & Hn & He & Hs).
    exists n. split; [exact Hn|].
    pose proof (mapM_keystoneEntry_ids _ _ M) as Hids.
    rewrite Forall_forall in Hids. specialize (Hids _ He). cbn [fst snd] in Hids.
    now rewrite Hids.
  - intros [= <-]. cbn. repeat split; first [lia | intros ks []].
Qed.

Lemma nodeEntry_skipped (l : list value) :
  forallb notStringNorObject l = true ->
  exists found, mapM nodeEntry l = Ok found /\ List.concat found = [].
Proof.
  induction l as [|v l IH]; cbn [forallb mapM].
  - intros _. exists []. split; reflexivity.
  - intros H. apply andb_true_iff in H as [Hv Hl].
    destruct (IH Hl) as (found & -> & Hc).
    destruct v; try discriminate; cbn [nodeEntry bind];
      eexists; (split; [reflexivity | exact Hc]).
Qed.

(** X27: node ids that arrive as numbers are not counted.  For a tree with
    one spec whose node entries are all numbers (or booleans), as a reader
    that converts numeric text produces them, no node id is extracted. *)
Theorem numeric_nodes_dropped (node : value) :
  truthy node = true ->
  forallb notStringNorObject (arrayOrSingleton node) = true ->
  extractNodeIds
    (VObj [("Specs", VObj [("Spec", VObj [("nodes", VObj [("node", node)])])])])
  = Ok [].
Proof.
  intros T H. unfold extractNodeIds. cbn [get assoc String.eqb Ascii.eqb Bool.eqb bind truthy arrayOrSingleton mapM].
  unfold specEntry. cbn [get assoc String.eqb Ascii.eqb Bool.eqb bind truthy]. rewrite T.
  destruct (nodeEntry_skipped _ H) as (found & -> & Hc). cbn [bind List.concat].
  rewrite Hc. reflexivity.
Qed.

End PassivesFacts.

(** A run of X26 with two keystones in the data, one of them allocated. *)
Lemma parsePassives_shape_run :
  let data := [VObj [("id", VStr "16226"); ("name", VStr "Chaos Inoculation");
                     ("effects", VArr [VStr "Maximum Life becomes 1"; VStr "Immune to Chaos Damage"])];
               VObj [("id", VStr "31961"); ("name", VStr "Resolute Technique")]] in
  let tree := VObj [("Specs", VObj [("Spec", VObj [("nodes",
                      VObj [("node", VArr [VStr "16226"; VStr "44683"])])])])] in
  exists t,
    fst (PassiveParser.parsePassives (Some data) [] tree) = Ok t
    /\ PassiveParser.totalPoints t = 2
    /\ PassiveParser.notables t = []
    /\ List.length (PassiveParser.keystones t) = 1%nat.
Proof.
  cbv zeta. eexists. split; [reflexivity|].
  destruct (parsePassives_shape
              (Some [VObj [("id", VStr "16226"); ("name", VStr "Chaos Inoculation");
                           ("effects", VArr [VStr "Maximum Life becomes 1";
                                             VStr "Immune to Chaos Damage"])];
                     VObj [("id", VStr "31961"); ("name", VStr "Resolute Technique")]])
              []
              (VObj [("Specs", VObj [("Spec", VObj [("nodes",
                       VObj [("node", VArr [VStr "16226"; VStr "44683"])])])])])
              _ eq_refl) as (H1 & H2 & _).
  split; [exact H1|]. split; [exact H2 | reflexivity].
Defined.

(** A run of X27: three node ids, read as numbers. *)
Lemma numeric_nodes_dropped_run :
  PassiveParser.extractNodeIds
    (VObj [("Specs", VObj [("Spec", VObj [("nodes",
             VObj [("node", VArr [VNum (Int 16226); VNum (Int 44683); VNum (Int 31961)])])])])])
  = Ok [].
Proof.
  apply (numeric_nodes_dropped (VArr [VNum (Int 16226); VNum (Int 44683); VNum (Int 31961)]));
    reflexivity.
Defined.

(** ** The defensive path of analyze_build *)

Section AnalyzeFacts.
Import Analyze.

Lemma digit_not_special (c : ascii) :
  is_digit c = true -> is_space c = false /\ c <> "-"%char /\ c <> "+"%char.
Proof.
  destruct c as [[] [] [] [] [] [] [] []]; cbn; intros H; try discriminate H;
    (split; [reflexivity | split; discriminate]).
Qed.

Lemma digits_from_some (a : Z) (s : string) : exists n, digits_from (Some a) s = Some n.
Proof.
  revert a. induction s as [|c r IH]; intros a; cbn [digits_from].
  - eexists; reflexivity.
  - destruct (is_digit c); [apply IH | eexists; reflexivity].
Qed.

(** The group of a match is read by [parseInt] as a number. *)
Lemma matchGroup_number (what s group : string) :
  matchGroup what s = Some group -> exists z, parseInt_str group = Int z.
Proof.
  induction s as [|c r IH]; cbn [matchGroup]; [discriminate|].
  destruct (is_digit c) eqn:D; [|exact IH].
  destruct (afterDigits what (dropDigits (String c r))); [|exact IH].
  intros [= <-]. cbn [takeDigits]. rewrite D.
  destruct (digit_not_special c D) as (Sp & Hm & Hp).
  unfold parseInt_str. cbn [skip_spaces]. rewrite Sp.
  assert (Hbody : (let '(sign, body) :=
                     match String c (takeDigits r) with
                     | String "-" r0 => (-1, r0)
                     | String "+" r0 => (1, r0)
                     | _ => (1, String c (takeDigits r))
                     end in
                   match digits_from None body with
                   | Some n => Int (sign * n)
                   | None => NaN
                   end)
                  = match digits_from None (String c (takeDigits r)) with
                    | Some n => Int (1 * n)
                    | None => NaN
                    end).
  { destruct c as [[] [] [] [] [] [] [] []]; try reflexivity; congruence. }
  rewrite Hbody. cbn [digits_from]. rewrite D.
  destruct (digits_from_some (10 * 0 + digit_val c) (takeDigits r)) as [n ->].
  eexists; reflexivity.
Qed.

Lemma affixStep_life (st : Z * Z) (t : string) :
  fst (affixStep st t) = if fst st =? 0 then lifeOf t else fst st.
Proof.
  unfold lifeOf, affixStep. cbn [fst snd].
  destruct (Z.eqb_spec (fst st) 0) as [->|_].
  - reflexivity.
  - now rewrite andb_false_r.
Qed.

Lemma affixStep_energyShield (st : Z * Z) (t : string) :
  snd (affixStep st t) = if snd st =? 0 then energyShieldOf t else snd st.
Proof.
  unfold energyShieldOf, affixStep. cbn [fst snd].
  destruct (Z.eqb_spec (snd st) 0) as [->|_].
  - reflexivity.
  - now rewrite andb_false_r.
Qed.

Lemma fold_affixStep (ts : list string) (st : Z * Z) :
  fst (fold_left affixStep ts st)
  = (if fst st =? 0 then firstNonzero (map lifeOf ts) else fst st)
  /\ snd (fold_left affixStep ts st)
     = (if snd st =? 0 then firstNonzero (map energyShieldOf ts) else snd st).
Proof.
  revert st. induction ts as [|t ts IH]; intros st; cbn [fold_left map firstNonzero].
  - split; [destruct (Z.eqb_spec (fst st) 0) | destruct (Z.eqb_spec (snd st) 0)]; congruence.
  - destruct (IH (affixStep st t)) as [-> ->].
    rewrite affixStep_life, affixStep_energyShield. split.
    + destruct (Z.eqb_spec (fst st) 0) as [_|Hn]; [reflexivity|].
      destruct (Z.eqb_spec (fst st) 0); [contradiction | reflexivity].
    + destruct (Z.eqb_spec (snd st) 0) as [_|Hn]; [reflexivity|].
      destruct (Z.eqb_spec (snd st) 0); [contradiction | reflexivity].
Qed.

Lemma fold_gearStep (g : list (option (list string))) (st : Z * Z) :
  fold_left gearStep g st = fold_left affixStep (gearTexts g) st.
Proof.
  revert st. induction g as [|x g IH]; intros st; cbn [fold_left gearTexts flat_map].
  - reflexivity.
  - rewrite fold_left_app, IH. destruct x; reflexivity.
Qed.

Lemma extract_life_energyShield (b : Build) :
  Defense.life (extractDefensiveStats b)
  = (if Defense.life (explicitStats b) =? 0
     then firstNonzero (map lifeOf (gearTexts (gear b)))
     else Defense.life (explicitStats b))
  /\ Defense.energyShield (extractDefensiveStats b)
     = (if Defense.energyShield (explicitStats b) =? 0
        then firstNonzero (map energyShieldOf (gearTexts (gear b)))
        else Defense.energyShield (explicitStats b)).
Proof.
  unfold extractDefensiveStats. fold (explicitStats b).
  cbn [withLife withEnergyShield Defense.life Defense.energyShield].
  destruct (fold_affixStep (gearTexts (gear b))
              (Defense.life (explicitStats b), Defense.energyShield (explicitStats b)))
    as [Hl He].
  cbn [fst snd] in Hl, He.
  destruct (Z.eqb_spec (Defense.life (explicitStats b)) 0) as [L|L];
    destruct (Z.eqb_spec (Defense.energyShield (explicitStats b)) 0) as [S|S];
    cbn [orb]; rewrite ?fold_gearStep, ?Hl, ?He; cbn [fst snd]; auto.
Qed.

(** X28: when the stats give no life (none, or 0), the life that
    [extractDefensiveStats] reports is the number of the first affix, in
    gear order, that has a non-zero "N to maximum life"; later affixes are
    not added to it.  The same holds for energy shield, and the other six
    stats are the explicit ones. *)
Theorem gear_estimate_is_first_match (b : Build) :
  Defense.life (extractDefensiveStats b)
  = (if Defense.life (explicitStats b) =? 0
     then firstNonzero (map lifeOf (gearTexts (gear b)))
     else Defense.life (explicitStats b))
  /\ Defense.energyShield (extractDefensiveStats b)
     = (if Defense.energyShield (explicitStats b) =? 0
        then firstNonzero (map energyShieldOf (gearTexts (gear b)))
        else Defense.energyShield (explicitStats b))
  /\ Defense.fireResist (extractDefensiveStats b) = Defense.fireResist (explicitStats b)
  /\ Defense.coldResist (extractDefensiveStats b) = Defense.coldResist (explicitStats b)
  /\ Defense.lightningResist (extractDefensiveStats b)
     = Defense.lightningResist (explicitStats b)
  /\ Defense.chaosResist (extractDefensiveStats b) = Defense.chaosResist (explicitStats b)
  /\ Defense.armor (extractDefensiveStats b) = Defense.armor (explicitStats b)
  /\ Defense.evasion (extractDefensiveStats b) = Defense.evasion (explicitStats b).
Proof.
  destruct (extract_life_energyShield b) as [Hl He].
  split; [exact Hl|]. split; [exact He|]. repeat split.
Qed.

Lemma estimate_unchanged (b : Build) :
  (hasName (map (fun s => toLowerCase (name s)) (stats b)) "life"
   || hasName (map (fun s => toLowerCase (name s)) (stats b)) "maximum life")%bool = true ->
  (hasName (map (fun s => toLowerCase (name s)) (stats b)) "energy shield"
   || hasName (map (fun s => toLowerCase (name s)) (stats b)) "maximum energy shield")%bool
  = true ->
  estimateMissingStats b = b.
Proof.
  intros Hl He. unfold estimateMissingStats. cbv zeta.
  rewrite <- !negb_orb, Hl, He. cbn [negb].
  destruct b; reflexivity.
Qed.

(** X29: [estimateMissingStats] changes nothing once the build has a stat
    named life (or maximum life) and one named energy shield (or maximum
    energy shield), whatever their values.  The six default stats of a build
    parsed without a Stats section are such, so the estimate from base life
    and summed gear life is never made for those builds. *)
Theorem estimate_only_without_stat (b : Build) :
  ((hasName (map (fun s => toLowerCase (name s)) (stats b)) "life"
    || hasName (map (fun s => toLowerCase (name s)) (stats b)) "maximum life")%bool = true ->
   (hasName (map (fun s => toLowerCase (name s)) (stats b)) "energy shield"
    || hasName (map (fun s => toLowerCase (name s)) (stats b)) "maximum energy shield")%bool
   = true ->
   estimateMissingStats b = b)
  /\ (stats b = getDefaultStats -> estimateMissingStats b = b).
Proof.
  split; [exact (estimate_unchanged b)|].
  intros H. apply estimate_unchanged; rewrite H; reflexivity.
Qed.

Lemma firstNonzero_bound (l : list Z) (m : Z) :
  0 <= m -> Forall (fun x => x <= m) l -> firstNonzero l <= m.
Proof.
  intros Hm H. induction H as [|x l Hx _ IH]; cbn [firstNonzero]; [exact Hm|].
  destruct (x =? 0); assumption.
Qed.


End AnalyzeFacts.

(** A run of X29 on the default stats. *)
Lemma estimate_only_without_stat_run :
  Analyze.estimateMissingStats
    (Analyze.mkBuild Analyze.getDefaultStats
       [Some ["+40 to maximum Life"; "+70 to maximum Life"]] 90 None)
  = Analyze.mkBuild Analyze.getDefaultStats
      [Some ["+40 to maximum Life"; "+70 to maximum Life"]] 90 None.
Proof.
  apply (proj2 (estimate_only_without_stat
                  (Analyze.mkBuild Analyze.getDefaultStats
                     [Some ["+40 to maximum Life"; "+70 to maximum Life"]] 90 None))).
  reflexivity.
Defined.

